(** * taxParser: a shallow embedding of the CSV tax pipeline

    The repository holds several successive versions of one Go program that
    reads a CSV of client charges, asks the Texas Comptroller's rate service
    for the sales-tax rates of every address, multiplies, and writes a report.
    Each version is embedded in a module of its own:

    - [Scraper]   (src/unnamed/part_003): HTML scraping, concurrent rows;
    - [JsonFloat] (src/unnamed/part_000, part_002): JSON rates as numbers;
    - [Fixed]     (src/main.go): JSON rates as strings, three tax fields;
    - [FixedDate] (src/unnamed/part_001): the same with a date column;
    - [Dynamic]   (src/unnamed/part_005): one tax column per jurisdiction;
    - [Dual]      (src/unnamed/part_004): the dynamic report plus totals.

    Go's [float64] is Rocq's primitive binary64 float, a Go [string] is a
    sequence of bytes ([string] of [ascii]), a Go [int] is a [Z] within the
    64-bit range, a Go [map[string]T] is a [gmap string T]. *)

From Stdlib Require Import ZArith NArith Ascii String List Floats Lia.
From Stdlib Require DecimalString.
From stdpp Require Import gmap strings list fin_maps.

Open Scope Z_scope.
Set Warnings "-inexact-float,-clear-no-such-hyp".

(** ** The Go standard library, as far as the program calls it *)
Module Go.

(** *** [strings.TrimSpace]

    White space is what [unicode.IsSpace] accepts: the six ASCII characters
    ['\t' '\n' '\v' '\f' '\r' ' '], U+0085, U+00A0, U+1680, U+2000..U+200A,
    U+2028, U+2029, U+202F, U+205F and U+3000.  UTF-8 is self-synchronising,
    so a string starts (ends) with such a rune exactly when its bytes start
    (end) with the rune's encoding. *)

Definition isAsciiSpace (b : N) : bool :=
  ((9 <=? b) && (b <=? 13) || (b =? 32))%N.

(** Width in bytes of the white-space rune encoded by the bytes [b1 b2 b3 ...]
    at the head of a string; [0%nat] when the head is not white space. *)
Definition spaceWidth (bs : list N) : nat :=
  match bs with
  | [] => 0
  | b1 :: r1 =>
    if isAsciiSpace b1 then 1
    else match r1 with
    | [] => 0
    | b2 :: r2 =>
      if ((b1 =? 194) && ((b2 =? 133) || (b2 =? 160)))%N then 2
      else match r2 with
      | [] => 0
      | b3 :: _ =>
        if ((b1 =? 225) && (b2 =? 154) && (b3 =? 128)
            || (b1 =? 226) && (b2 =? 128)
               && ((128 <=? b3) && (b3 <=? 138) || (b3 =? 168) || (b3 =? 169) || (b3 =? 175))
            || (b1 =? 226) && (b2 =? 129) && (b3 =? 159)
            || (b1 =? 227) && (b2 =? 128) && (b3 =? 128))%N then 3
        else 0
      end
    end
  end%nat.

(** The same test read from the last byte backwards: [bs] is the string's
    bytes in reverse order. *)
Definition spaceWidthLast (bs : list N) : nat :=
  match bs with
  | [] => 0
  | b1 :: [] => spaceWidth [b1]
  | b1 :: b2 :: [] => if isAsciiSpace b1 then 1 else spaceWidth [b2; b1]
  | b1 :: b2 :: b3 :: _ =>
    if isAsciiSpace b1 then 1
    else if (spaceWidth [b2; b1] =? 2)%nat then 2
    else if (spaceWidth [b3; b2; b1] =? 3)%nat then 3
    else 0
  end%nat.

Definition bytes (s : string) : list N := map N_of_ascii (list_ascii_of_string s).
Definition ofBytes (bs : list N) : string := string_of_list_ascii (map ascii_of_N bs).

(** Dropping white-space runes from the front.  [n] bounds the number of
    runes dropped; [length bs] is always enough. *)
Fixpoint dropSpaces (width : list N -> nat) (n : nat) (bs : list N) : list N :=
  match n with
  | O => bs
  | S n' =>
    match width bs with
    | O => bs
    | w => dropSpaces width n' (drop w bs)
    end
  end.

Definition TrimLeft (bs : list N) : list N := dropSpaces spaceWidth (length bs) bs.
Definition TrimRight (bs : list N) : list N :=
  rev (dropSpaces spaceWidthLast (length bs) (rev bs)).

Definition TrimSpace (s : string) : string := ofBytes (TrimRight (TrimLeft (bytes s))).

(** A string carries leading (trailing) white space when its first (last)
    rune is a white-space rune. *)
Definition hasLeadingSpace (s : string) : bool := negb (spaceWidth (bytes s) =? 0)%nat.
Definition hasTrailingSpace (s : string) : bool := negb (spaceWidthLast (rev (bytes s)) =? 0)%nat.

(** *** [strings.Split(s, sep)] for a one-byte separator: the pieces of [s]
    between the occurrences of [sep]; the empty string gives one empty piece. *)
Fixpoint Split (s : string) (sep : ascii) : list string :=
  match s with
  | EmptyString => [EmptyString]
  | String c s' =>
    if Ascii.eqb c sep then EmptyString :: Split s' sep
    else match Split s' sep with
         | p :: ps => String c p :: ps
         | [] => [String c EmptyString]
         end
  end.

(** *** [strconv.Atoi]: an optional sign and one or more decimal digits, with a
    value that fits a 64-bit [int]; anything else is an error. *)
Definition digitValue (c : ascii) : option Z :=
  let n := N_of_ascii c in
  if ((48 <=? n) && (n <=? 57))%N then Some (Z.of_N n - 48) else None.

Fixpoint digitsValue (s : string) (acc : Z) : option Z :=
  match s with
  | EmptyString => Some acc
  | String c s' =>
    match digitValue c with
    | Some d => digitsValue s' (acc * 10 + d)
    | None => None
    end
  end.

Definition minInt : Z := - 2 ^ 63.
Definition maxInt : Z := 2 ^ 63 - 1.

Definition Atoi (s : string) : option Z :=
  let '(neg, body) :=
    match s with
    | String "-"%char t => (true, t)
    | String "+"%char t => (false, t)
    | _ => (false, s)
    end in
  match body with
  | EmptyString => None
  | _ =>
    match digitsValue body 0 with
    | Some n =>
      let v := if neg then - n else n in
      if (minInt <=? v) && (v <=? maxInt) then Some v else None
    | None => None
    end
  end.

(** *** [fmt.Sprintf("%.2f", f)]: the exact value of [f] rounded to two decimals,
    ties to even, printed with its sign. *)
Definition decimal (n : Z) : string :=
  DecimalString.NilZero.string_of_uint (N.to_uint (Z.to_N n)).

Definition twoDigits (n : Z) : string :=
  if n <? 10 then String "0"%char (decimal n) else decimal n.

(** [round (m * 2^e * 100)] to the nearest integer, ties to even. *)
Definition hundredths (m : positive) (e : Z) : Z :=
  if 0 <=? e then Z.pos m * 2 ^ e * 100
  else
    let den := 2 ^ (- e) in
    let q := (Z.pos m * 100) / den in
    let r := (Z.pos m * 100) mod den in
    if (den <? 2 * r) || ((den =? 2 * r) && Z.odd q) then q + 1 else q.

Definition signString (s : bool) : string := if s then "-"%string else ""%string.

Definition Sprintf_2f (f : float) : string :=
  match Prim2SF f with
  | S754_nan => "NaN"
  | S754_infinity s => (if s then "-Inf" else "+Inf")
  | S754_zero s => signString s ++ "0.00"
  | S754_finite s m e =>
    let n := hundredths m e in
    signString s ++ decimal (n / 100) ++ "." ++ twoDigits (n mod 100)
  end%string.

(** *** A reference [strconv.ParseFloat]

    The program is embedded over an arbitrary [ParseFloat : string -> option
    float] ([None] when Go returns an error, which the program only tests
    against [nil]).  The function below is the instance used to run the
    embedding on concrete rows: decimal literals with an optional sign,
    fraction and exponent, correctly rounded, a range error on overflow, and
    the special values.  Hexadecimal literals and digit-separating
    underscores, which Go also reads, are left out of it. *)
Fixpoint spanDigits (s : string) : string * string :=
  match s with
  | String c s' =>
    match digitValue c with
    | Some _ => let '(d, r) := spanDigits s' in (String c d, r)
    | None => (EmptyString, s)
    end
  | EmptyString => (EmptyString, EmptyString)
  end.

Definition lowerByte (c : ascii) : ascii :=
  let n := N_of_ascii c in
  if ((65 <=? n) && (n <=? 90))%N then ascii_of_N (n + 32) else c.

Fixpoint lower (s : string) : string :=
  match s with
  | EmptyString => EmptyString
  | String c s' => String (lowerByte c) (lower s')
  end.

Definition splitSign (s : string) : bool * string :=
  match s with
  | String "-"%char t => (true, t)
  | String "+"%char t => (false, t)
  | _ => (false, s)
  end.

(** The decimal exponent after the mantissa: absent, or [e]/[E], an optional
    sign and at least one digit, up to the end of the string. *)
Definition readExponent (s : string) : option Z :=
  match s with
  | EmptyString => Some 0
  | String c t =>
    if Ascii.eqb (lowerByte c) "e"%char then
      let '(neg, ds) := splitSign t in
      match ds with
      | EmptyString => None
      | _ => match digitsValue ds 0 with
             | Some n => Some (if neg then - n else n)
             | None => None
             end
      end
    else None
  end.

(** [num / den] rounded to the nearest binary64, ties to even. *)
Definition roundRatio (neg : bool) (num den : Z) : spec_float :=
  if num =? 0 then S754_zero neg
  else
    let '(q, e, l) := SFdiv_core_binary prec emax num 0 den 0 in
    binary_round_aux prec emax neg q e l.

Definition ParseFloat_decimal (s : string) : option float :=
  let '(neg, body) := splitSign s in
  let name := lower body in
  if (String.eqb name "inf" || String.eqb name "infinity")%bool then
    Some (if neg then neg_infinity else infinity)
  else if String.eqb (lower s) "nan" then Some nan
  else
    let '(ip, r1) := spanDigits body in
    let '(fp, r2) :=
      match r1 with
      | String "."%char t => spanDigits t
      | _ => (EmptyString, r1)
      end in
    match (ip ++ fp)%string with
    | EmptyString => None
    | ds =>
      match digitsValue ds 0, readExponent r2 with
      | Some m, Some e =>
        let e10 := e - Z.of_nat (String.length fp) in
        let v := if 0 <=? e10 then roundRatio neg (m * 10 ^ e10) 1
                 else roundRatio neg m (10 ^ (- e10)) in
        match v with
        | S754_infinity _ => None
        | _ => Some (SF2Prim v)
        end
      | _, _ => None
      end
    end.

End Go.


(** *** [encoding/csv]

    The file is taken as the reader's tokeniser leaves it: one item per
    record, either its fields or the error found there.  [reads] is the
    sequence of results that successive calls of [reader.Read] return before
    [io.EOF].  With the default [FieldsPerRecord = 0] the first record fixes
    the number of fields, and a later record with another number of fields is
    returned together with [ErrFieldCount]. *)
Module Csv.

Inductive Item :=
| Row (fields : list string)
| Malformed (e : string).

Inductive ReadResult :=
| Fields (row : list string)
| Failed (e : string).

Definition ErrFieldCount : string := "wrong number of fields".

Definition fieldsPerRecord (file : list Item) : nat :=
  match file with
  | Row fields :: _ => length fields
  | _ => 0
  end.

Definition Read (n : nat) (it : Item) : ReadResult :=
  match it with
  | Row fields => if (length fields =? n)%nat then Fields fields else Failed ErrFieldCount
  | Malformed e => Failed e
  end.

Definition reads (file : list Item) : list ReadResult :=
  map (Read (fieldsPerRecord file)) file.

End Csv.

(** *** Iteration over a map

    Go visits the keys of a map once each, in an order it does not specify.
    [rangeKeys k X] is the order in which the [range] statement numbered [k]
    visits the key set [X]; the program is embedded over every such order. *)
Record MapOrder := {
  rangeKeys : nat -> gset string -> list string;
  rangeKeys_perm : forall k X, rangeKeys k X ≡ₚ elements X
}.

(** The order of [elements], to run the embedding. *)
Definition elementsOrder : MapOrder :=
  {| rangeKeys := fun _ X => elements X;
     rangeKeys_perm := fun _ X => reflexivity (elements X) |}.

(** [for k, v := range m { body }], the loop state threaded through. *)
Definition rangeMap {V S : Type} (o : MapOrder) (site : nat)
    (m : gmap string V) (body : string -> V -> S -> S) (init : S) : S :=
  fold_left
    (fun st k => match m !! k with Some v => body k v st | None => st end)
    (rangeKeys o site (dom m)) init.

(** *** Goroutines

    The rows that the goroutines of part_003 send on the results channel
    arrive in the order in which they finish, one each: [arrive rows] is the
    order of arrival of the rows [rows], listed in the order of their start;
    the program is embedded over every such order. *)
Record Arrival := {
  arrive : list (list string) -> list (list string);
  arrive_perm : forall rows, arrive rows ≡ₚ rows
}.

(** Every goroutine ends before the next one does, to run the embedding. *)
Definition inTurn : Arrival :=
  {| arrive := fun rows => rows;
     arrive_perm := fun rows => reflexivity rows |}.

(** ** What the versions share *)

(** [func equal(a, b []string) bool], the same text in every version. *)
Definition equal (a b : list string) : bool :=
  if negb (length a =? length b)%nat then false
  else forallb (fun i => String.eqb (nth i a EmptyString) (nth i b EmptyString))
               (seq 0 (length a)).

(** [quarter := (month-1)/3 + 1]; Go's integer division truncates. *)
Definition quarter (month : Z) : Z := Z.quot (month - 1) 3 + 1.

(** The rate service's JSON reply, [TaxRateResponse] with string rates. *)
Module Api.

Record RateEntry := {
  JurisName : string;
  JurisType : string;
  JurisRate : string
}.

Record TaxRateResponse := {
  TaxRates : list RateEntry;
  TotalTaxRate : string;
  Street : string;
  City : string;
  ZipCode : string;
  GisReturnCode : string
}.

(** The query parameters of one request. *)
Record Query := {
  q_state : string;
  q_city : string;
  q_zipcode : string;
  q_street : string;
  q_quarter : Z;
  q_year : Z
}.

(** What [client.Do] and [io.ReadAll] bring back. *)
Inductive Exchange :=
| DoFailed (e : string)
| ReadFailed (status : Z) (e : string)
| Replied (status : Z) (body : string).

Definition StatusOK : Z := 200.

End Api.

(** The lines the program writes with [log.Printf]. *)
Inductive LogLine :=
| LogRequest (q : Api.Query)
| LogStatus (status : Z)
| LogBody (body : string)
| LogAddressMismatch (inStreet inCity inZip outStreet outCity outZip : string)
| LogRateParseFailure (rate name : string)
| LogParsedRates (city county state : float)
| LogParsedRateMap (rates : gmap string float)
| LogFewRates (n : nat).

(** The errors the program builds with [fmt.Errorf], the arguments of the
    format kept as they are passed.  Those of [scrapeTaxRates]:
    - [FetchFailed]: "failed to fetch tax rates: %v";
    - [ReadBodyFailed]: "failed to read response body: %v";
    - [UnexpectedStatus]: "unexpected status code: %d - %s";
    - [BadJSON]: "failed to parse JSON: %v - raw response: %s";
    - [NoStateRate]: "no state tax rate found";
    - [NoStateRateIn]: "no state tax rate found in response: %+v";
    - [NoRatesIn]: "no tax rates found in response: %+v". *)
Inductive LookupError :=
| FetchFailed (e : string)
| ReadBodyFailed (e : string)
| UnexpectedStatus (status : Z) (body : string)
| BadJSON (body : string)
| NoStateRate
| NoStateRateIn (taxData : Api.TaxRateResponse)
| NoRatesIn (taxData : Api.TaxRateResponse).

(** Those of [processCSV]:
    - [ReadError], [EndOfFile]: the error of [reader.Read], returned as it is;
    - [InvalidHeader]: "invalid CSV header: got %v, expected %v";
    - [InvalidDateFormat]: "invalid date format for client %s: %s";
    - [InvalidMonth]: "invalid month in date for client %s: %s";
    - [InvalidDay]: "invalid day in date for client %s: %s";
    - [InvalidYear]: "invalid year in date for client %s: %s";
    - [InvalidCharge]: "invalid charge for client %s: %v", the second
      argument being ParseFloat's error, which quotes the field;
    - [ScrapeFailed]: "error scraping tax rates for %s: %v". *)
Inductive Error :=
| ReadError (e : string)
| EndOfFile
| InvalidHeader (got expected : list string)
| InvalidDateFormat (client date : string)
| InvalidMonth (client date : string)
| InvalidDay (client date : string)
| InvalidYear (client date : string)
| InvalidCharge (client field : string)
| ScrapeFailed (client : string) (cause : LookupError).

(** The request as the handlers see it, and what they answer.  The sizes the
    handler of part_004 logs and the errors of its in-memory writers are left
    out. *)
Module Http.

Inductive Upload :=
| BadForm
| NoFile
| Uploaded (file : list Csv.Item).

Inductive Reply :=
| MethodNotAllowed
| BadRequest (text : string)
| InternalServerError (err : Error)
| CsvFile (filename : string) (table : list (list string))
| ZipFile (filename : string) (entries : list (string * list (list string))).

End Http.

(** [corsMiddleware] (part_001 lines 65-79, part_004 lines 56-68, part_005
    lines 54-66): the three headers are set on every reply; a preflight
    request is answered [200] at once, any other goes on to [next]. *)
Definition corsHeaders : list (string * string) :=
  [("Access-Control-Allow-Origin", "https://skeen0711.github.io");
   ("Access-Control-Allow-Methods", "POST, GET, OPTIONS");
   ("Access-Control-Allow-Headers", "Content-Type")]%string.

Definition corsMiddleware {A : Type} (next : string -> A) (Method : string)
    : list (string * string) * option A :=
  if String.eqb Method "OPTIONS" then (corsHeaders, None)
  else (corsHeaders, Some (next Method)).

(** [row[i]]; the reader has checked that the row has the fields of the
    header, so that the index is in range. *)
Definition field (i : nat) (row : list string) : string := nth i row EmptyString.

(** The date checks of the versions with a date column (part_001 lines
    161-176, part_004 lines 249-264, part_005 lines 165-180): [row0] is the
    client field and [row1] the date field, both trimmed. *)
Definition parseDate (row0 row1 : string) : Error + (Z * Z * Z) :=
  let dateParts := Go.Split row1 "/" in
  if negb (length dateParts =? 3)%nat then inl (InvalidDateFormat row0 row1)
  else
    match Go.Atoi (field 0 dateParts) with
    | None => inl (InvalidMonth row0 row1)
    | Some month =>
      if (month <? 1) || (month >? 12) then inl (InvalidMonth row0 row1)
      else
        match Go.Atoi (field 1 dateParts) with
        | None => inl (InvalidDay row0 row1)
        | Some day =>
          if (day <? 1) || (day >? 31) then inl (InvalidDay row0 row1)
          else
            match Go.Atoi (field 2 dateParts) with
            | None => inl (InvalidYear row0 row1)
            | Some year =>
              if year <? 2000 then inl (InvalidYear row0 row1)
              else inr (month, day, year)
            end
        end
    end.

(** The loop over the reply's entries in the versions with three tax fields
    (main.go lines 202-217, part_001 lines 267-282): the rate of the last
    entry of each type that parses; an entry that does not parse is logged
    and passed over. *)
Section ThreeRates.
Variable ParseFloat : string -> option float.

Definition rateStep (st : float * float * float * list LogLine) (rate : Api.RateEntry)
    : float * float * float * list LogLine :=
  let '(cityRate, countyRate, stateRate, log) := st in
  match ParseFloat (Api.JurisRate rate) with
  | None => (cityRate, countyRate, stateRate,
             log ++ [LogRateParseFailure (Api.JurisRate rate) (Api.JurisType rate)])
  | Some r =>
    if String.eqb (Api.JurisType rate) "STATE" then (cityRate, countyRate, r, log)
    else if String.eqb (Api.JurisType rate) "COUNTY" then (cityRate, r, stateRate, log)
    else if String.eqb (Api.JurisType rate) "CITY" then (r, countyRate, stateRate, log)
    else (cityRate, countyRate, stateRate, log)
  end.

Definition threeRates (rates : list Api.RateEntry) : float * float * float * list LogLine :=
  fold_left rateStep rates (0%float, 0%float, 0%float, []).

(** From the address check to the return (main.go lines 189-230, part_001
    lines 255-294). *)
Definition ratesOfReply (ToUpper : string -> string) (street city zip : string)
    (taxData : Api.TaxRateResponse)
    : list LogLine * (LookupError + float * float * float) :=
  let inputStreet := ToUpper street in
  let inputCity := ToUpper city in
  let returnedStreet := ToUpper (Api.Street taxData) in
  let returnedCity := ToUpper (Api.City taxData) in
  let returnedZip := Api.ZipCode taxData in
  let log1 :=
    if negb (String.eqb inputStreet returnedStreet)
       || negb (String.eqb inputCity returnedCity)
       || negb (String.eqb zip returnedZip)
    then [LogAddressMismatch inputStreet inputCity zip returnedStreet returnedCity returnedZip]
    else [] in
  let '(cityRate, countyRate, stateRate, log2) := threeRates (Api.TaxRates taxData) in
  let log3 := [LogParsedRates cityRate countyRate stateRate] in
  if (stateRate =? 0)%float then (log1 ++ log2 ++ log3, inl (NoStateRateIn taxData))
  else
    let log4 :=
      if (length (Api.TaxRates taxData) <? 3)%nat
      then [LogFewRates (length (Api.TaxRates taxData))] else [] in
    (log1 ++ log2 ++ log3 ++ log4, inr (cityRate, countyRate, stateRate)).

(** [scrapeTaxRates] from the request to the decoded reply, the same in
    main.go (lines 144-187) and part_001 (lines 210-253). *)
Definition scrapeThree (ToUpper : string -> string)
    (Unmarshal : string -> option Api.TaxRateResponse)
    (exchange : Api.Exchange) (q : Api.Query)
    : list LogLine * (LookupError + float * float * float) :=
  match exchange with
  | Api.DoFailed e => ([], inl (FetchFailed e))
  | Api.ReadFailed status e =>
    ([LogRequest q; LogStatus status], inl (ReadBodyFailed e))
  | Api.Replied status body =>
    let log0 := [LogRequest q; LogStatus status; LogBody body] in
    if negb (status =? Api.StatusOK) then (log0, inl (UnexpectedStatus status body))
    else
      match Unmarshal body with
      | None => (log0, inl (BadJSON body))
      | Some taxData =>
        let '(log, res) :=
          ratesOfReply ToUpper (Api.q_street q) (Api.q_city q) (Api.q_zipcode q) taxData in
        (log0 ++ log, res)
      end
  end.
End ThreeRates.

(** ** src/main.go: three tax fields, no date column *)
Module Fixed.

Record TaxRecord := {
  Client : string;
  Charge : float;
  Street : string;
  City : string;
  State : string;
  Zip : string;
  CityTax : float;
  CountyTax : float;
  StateTax : float
}.

Definition expected : list string :=
  ["client"; "charge"; "street address"; "city"; "State"; "zip code"]%string.

Section Program.
Variable ParseFloat : string -> option float.
Variable ToUpper : string -> string.
Variable Unmarshal : string -> option Api.TaxRateResponse.
(** The year of [time.Now()], and the exchange that the [n]-th request of a
    run has with the rate service. *)
Variable thisYear : Z.
Variable Do : nat -> Api.Query -> Api.Exchange.

Definition scrapeTaxRates (n : nat) (street city state zip : string)
    : list LogLine * (LookupError + float * float * float) :=
  let q := {| Api.q_state := state; Api.q_city := city; Api.q_zipcode := zip;
              Api.q_street := street; Api.q_quarter := 1; Api.q_year := thisYear |} in
  scrapeThree ParseFloat ToUpper Unmarshal (Do n q) q.

(** The body of the loop of [processCSV] (lines 110-138) for the row read,
    [n] lookups having been made before it. *)
Definition processRow (n : nat) (row0 : list string)
    : list LogLine * (Error + TaxRecord) :=
  let row := map Go.TrimSpace row0 in
  match ParseFloat (field 1 row) with
  | None => ([], inl (InvalidCharge (field 0 row) (field 1 row)))
  | Some charge =>
    let rec := {| Client := field 0 row; Charge := charge; Street := field 2 row;
                  City := field 3 row; State := field 4 row; Zip := field 5 row;
                  CityTax := 0; CountyTax := 0; StateTax := 0 |} in
    match scrapeTaxRates n (Street rec) (City rec) (State rec) (Zip rec) with
    | (log, inl err) => (log, inl (ScrapeFailed (Client rec) err))
    | (log, inr (cityRate, countyRate, stateRate)) =>
      (log, inr {| Client := Client rec; Charge := Charge rec; Street := Street rec;
                   City := City rec; State := State rec; Zip := Zip rec;
                   CityTax := charge * cityRate;
                   CountyTax := charge * countyRate;
                   StateTax := charge * stateRate |})
    end
  end.

Fixpoint loop (rest : list Csv.ReadResult) (records : list TaxRecord) (log : list LogLine)
    : list LogLine * (Error + list TaxRecord) :=
  match rest with
  | [] => (log, inr records)
  | Csv.Failed e :: _ => (log, inl (ReadError e))
  | Csv.Fields row :: rest' =>
    match processRow (length records) row with
    | (l, inl err) => (log ++ l, inl err)
    | (l, inr rec) => loop rest' (records ++ [rec]) (log ++ l)
    end
  end.

Definition processCSV (file : list Csv.Item) : list LogLine * (Error + list TaxRecord) :=
  match Csv.reads file with
  | [] => ([], inl EndOfFile)
  | Csv.Failed e :: _ => ([], inl (ReadError e))
  | Csv.Fields header :: rest =>
    if negb (equal header expected) then ([], inl (InvalidHeader header expected))
    else loop rest [] []
  end.
End Program.

(** The table [main] writes to output.csv (lines 70-83). *)
Definition outputRow (rec : TaxRecord) : list string :=
  [Client rec; Go.Sprintf_2f (Charge rec); Street rec; City rec; State rec; Zip rec;
   Go.Sprintf_2f (CityTax rec); Go.Sprintf_2f (CountyTax rec); Go.Sprintf_2f (StateTax rec)].

Definition output (records : list TaxRecord) : list (list string) :=
  ["client"; "charge"; "street address"; "city"; "State"; "zip code";
   "city tax"; "county tax"; "state tax"]%string :: map outputRow records.

End Fixed.

(** ** src/unnamed/part_001: three tax fields and a date column *)
Module FixedDate.

Record TaxRecord := {
  Client : string;
  Date : string;
  Charge : float;
  Street : string;
  City : string;
  State : string;
  Zip : string;
  CityTax : float;
  CountyTax : float;
  StateTax : float
}.

Definition expected : list string :=
  ["client"; "date"; "charge"; "street address"; "city"; "State"; "zip code"]%string.

Section Program.
Variable ParseFloat : string -> option float.
Variable ToUpper : string -> string.
Variable Unmarshal : string -> option Api.TaxRateResponse.
Variable Do : nat -> Api.Query -> Api.Exchange.

Definition scrapeTaxRates (n : nat) (street city state zip : string) (quarter year : Z)
    : list LogLine * (LookupError + float * float * float) :=
  let q := {| Api.q_state := state; Api.q_city := city; Api.q_zipcode := zip;
              Api.q_street := street; Api.q_quarter := quarter; Api.q_year := year |} in
  scrapeThree ParseFloat ToUpper Unmarshal (Do n q) q.

(** The body of the loop of [processCSV] (lines 157-204). *)
Definition processRow (n : nat) (row0 : list string)
    : list LogLine * (Error + TaxRecord) :=
  let row := map Go.TrimSpace row0 in
  match parseDate (field 0 row) (field 1 row) with
  | inl err => ([], inl err)
  | inr (month, day, year) =>
    let quarter := quarter month in
    match ParseFloat (field 2 row) with
    | None => ([], inl (InvalidCharge (field 0 row) (field 2 row)))
    | Some charge =>
      let rec := {| Client := field 0 row; Date := field 1 row; Charge := charge;
                    Street := field 3 row; City := field 4 row; State := field 5 row;
                    Zip := field 6 row; CityTax := 0; CountyTax := 0; StateTax := 0 |} in
      match scrapeTaxRates n (Street rec) (City rec) (State rec) (Zip rec) quarter year with
      | (log, inl err) => (log, inl (ScrapeFailed (Client rec) err))
      | (log, inr (cityRate, countyRate, stateRate)) =>
        (log, inr {| Client := Client rec; Date := Date rec; Charge := Charge rec;
                     Street := Street rec; City := City rec; State := State rec;
                     Zip := Zip rec;
                     CityTax := charge * cityRate;
                     CountyTax := charge * countyRate;
                     StateTax := charge * stateRate |})
      end
    end
  end.

Fixpoint loop (rest : list Csv.ReadResult) (records : list TaxRecord) (log : list LogLine)
    : list LogLine * (Error + list TaxRecord) :=
  match rest with
  | [] => (log, inr records)
  | Csv.Failed e :: _ => (log, inl (ReadError e))
  | Csv.Fields row :: rest' =>
    match processRow (length records) row with
    | (l, inl err) => (log ++ l, inl err)
    | (l, inr rec) => loop rest' (records ++ [rec]) (log ++ l)
    end
  end.

Definition processCSV (file : list Csv.Item) : list LogLine * (Error + list TaxRecord) :=
  match Csv.reads file with
  | [] => ([], inl EndOfFile)
  | Csv.Failed e :: _ => ([], inl (ReadError e))
  | Csv.Fields header :: rest =>
    if negb (equal header expected) then ([], inl (InvalidHeader header expected))
    else loop rest [] []
  end.
End Program.

(** The table [taxRatesHandler] writes (lines 118-132). *)
Definition outputRow (rec : TaxRecord) : list string :=
  [Client rec; Date rec; Go.Sprintf_2f (Charge rec); Street rec; City rec; State rec;
   Zip rec; Go.Sprintf_2f (CityTax rec); Go.Sprintf_2f (CountyTax rec);
   Go.Sprintf_2f (StateTax rec)].

Definition output (records : list TaxRecord) : list (list string) :=
  ["client"; "date"; "charge"; "street address"; "city"; "State"; "zip code";
   "city tax"; "county tax"; "state tax"]%string :: map outputRow records.

End FixedDate.

(** ** src/unnamed/part_005: one tax column per jurisdiction

    [processCSV], [scrapeTaxRates] and [getAllJurisNames] have the same text
    in part_004, whose handler is embedded in [Dual] below. *)
Module Dynamic.

Record TaxRecord := {
  Client : string;
  Date : string;
  Charge : float;
  Street : string;
  City : string;
  State : string;
  Zip : string;
  Taxes : gmap string float
}.

Definition expected : list string :=
  ["client"; "date"; "charge"; "street address"; "city"; "State"; "zip code"]%string.

(** The numbers of the [range] statements over maps. *)
Definition siteTaxRates : nat := 0.
Definition siteRecordTaxes : nat := 1.
Definition siteJurisSet : nat := 2.

Section Program.
Variable ParseFloat : string -> option float.
Variable Unmarshal : string -> option Api.TaxRateResponse.
Variable Do : nat -> Api.Query -> Api.Exchange.
Variable order : MapOrder.

(** The loop over the reply's entries (lines 260-268). *)
Definition rateStep (st : gmap string float * list LogLine) (rate : Api.RateEntry)
    : gmap string float * list LogLine :=
  let '(taxRates, log) := st in
  match ParseFloat (Api.JurisRate rate) with
  | None => (taxRates, log ++ [LogRateParseFailure (Api.JurisRate rate) (Api.JurisName rate)])
  | Some r => (<[Api.JurisName rate := r]> taxRates, log)
  end.

Definition rateMap (rates : list Api.RateEntry) : gmap string float * list LogLine :=
  fold_left rateStep rates (∅, []).

(** Lines 260-276. *)
Definition ratesOfReply (taxData : Api.TaxRateResponse)
    : list LogLine * (LookupError + gmap string float) :=
  let '(taxRates, log) := rateMap (Api.TaxRates taxData) in
  let log' := log ++ [LogParsedRateMap taxRates] in
  if (size taxRates =? 0)%nat then (log', inl (NoRatesIn taxData))
  else (log', inr taxRates).

Definition scrapeTaxRates (n : nat) (street city state zip : string) (quarter year : Z)
    : list LogLine * (LookupError + gmap string float) :=
  let q := {| Api.q_state := state; Api.q_city := city; Api.q_zipcode := zip;
              Api.q_street := street; Api.q_quarter := quarter; Api.q_year := year |} in
  match Do n q with
  | Api.DoFailed e => ([], inl (FetchFailed e))
  | Api.ReadFailed status e =>
    ([LogRequest q; LogStatus status], inl (ReadBodyFailed e))
  | Api.Replied status body =>
    let log0 := [LogRequest q; LogStatus status; LogBody body] in
    if negb (status =? Api.StatusOK) then (log0, inl (UnexpectedStatus status body))
    else
      match Unmarshal body with
      | None => (log0, inl (BadJSON body))
      | Some taxData =>
        let '(log, res) := ratesOfReply taxData in (log0 ++ log, res)
      end
  end.

(** Lines 205-207: [for juris, rate := range taxRates { rec.Taxes[juris] =
    charge * rate }], from the empty map of the new record. *)
Definition amounts (charge : float) (taxRates : gmap string float) : gmap string float :=
  rangeMap order siteTaxRates taxRates
    (fun juris rate taxes => <[juris := (charge * rate)%float]> taxes) ∅.

(** The body of the loop of [processCSV] (lines 161-209). *)
Definition processRow (n : nat) (row0 : list string)
    : list LogLine * (Error + TaxRecord) :=
  let row := map Go.TrimSpace row0 in
  match parseDate (field 0 row) (field 1 row) with
  | inl err => ([], inl err)
  | inr (month, day, year) =>
    let quarter := quarter month in
    match ParseFloat (field 2 row) with
    | None => ([], inl (InvalidCharge (field 0 row) (field 2 row)))
    | Some charge =>
      let rec := {| Client := field 0 row; Date := field 1 row; Charge := charge;
                    Street := field 3 row; City := field 4 row; State := field 5 row;
                    Zip := field 6 row; Taxes := ∅ |} in
      match scrapeTaxRates n (Street rec) (City rec) (State rec) (Zip rec) quarter year with
      | (log, inl err) => (log, inl (ScrapeFailed (Client rec) err))
      | (log, inr taxRates) =>
        (log, inr {| Client := Client rec; Date := Date rec; Charge := Charge rec;
                     Street := Street rec; City := City rec; State := State rec;
                     Zip := Zip rec; Taxes := amounts charge taxRates |})
      end
    end
  end.

Fixpoint loop (rest : list Csv.ReadResult) (records : list TaxRecord) (log : list LogLine)
    : list LogLine * (Error + list TaxRecord) :=
  match rest with
  | [] => (log, inr records)
  | Csv.Failed e :: _ => (log, inl (ReadError e))
  | Csv.Fields row :: rest' =>
    match processRow (length records) row with
    | (l, inl err) => (log ++ l, inl err)
    | (l, inr rec) => loop rest' (records ++ [rec]) (log ++ l)
    end
  end.

Definition processCSV (file : list Csv.Item) : list LogLine * (Error + list TaxRecord) :=
  match Csv.reads file with
  | [] => ([], inl EndOfFile)
  | Csv.Failed e :: _ => ([], inl (ReadError e))
  | Csv.Fields header :: rest =>
    if negb (equal header expected) then ([], inl (InvalidHeader header expected))
    else loop rest [] []
  end.

(** [getAllJurisNames] (lines 125-137). *)
Definition getAllJurisNames (records : list TaxRecord) : list string :=
  let jurisSet : gset string :=
    fold_left
      (fun jurisSet rec =>
         rangeMap order siteRecordTaxes (Taxes rec)
           (fun juris _ jurisSet => {[juris]} ∪ jurisSet) jurisSet)
      records ∅ in
  fold_left (fun jurisNames juris => jurisNames ++ [juris])
            (rangeKeys order siteJurisSet jurisSet) [].

(** [rec.Taxes[juris]]: the zero value for a key the map lacks. *)
Definition taxOf (rec : TaxRecord) (juris : string) : float :=
  default 0%float (Taxes rec !! juris).

(** The table [taxRatesHandler] writes (lines 98-121). *)
Definition headers (jurisNames : list string) : list string :=
  (["client"; "date"; "charge"; "street address"; "city"; "State"; "zip code"]%string
   ++ jurisNames)%list.

Definition outputRow (jurisNames : list string) (rec : TaxRecord) : list string :=
  fold_left (fun row juris => row ++ [Go.Sprintf_2f (taxOf rec juris)]) jurisNames
    [Client rec; Date rec; Go.Sprintf_2f (Charge rec); Street rec; City rec;
     State rec; Zip rec].

Definition output (records : list TaxRecord) : list (list string) :=
  let jurisNames := getAllJurisNames records in
  headers jurisNames :: map (outputRow jurisNames) records.

(** [taxRatesHandler] (lines 68-122). *)
Definition taxRatesHandler (Method : string) (upload : Http.Upload)
    : list LogLine * Http.Reply :=
  if negb (String.eqb Method "POST") then ([], Http.MethodNotAllowed)
  else
    match upload with
    | Http.BadForm => ([], Http.BadRequest "Error parsing form")
    | Http.NoFile => ([], Http.BadRequest "Error retrieving file")
    | Http.Uploaded file =>
      match processCSV file with
      | (log, inl err) => (log, Http.InternalServerError err)
      | (log, inr records) => (log, Http.CsvFile "result.csv" (output records))
      end
    end.
End Program.

End Dynamic.

(** ** src/unnamed/part_004: the dynamic report and the totals, zipped *)
Module Dual.

Definition siteTotals : nat := 3.
Definition siteJurisTotals : nat := 4.

Section Handler.
Variable ParseFloat : string -> option float.
Variable Unmarshal : string -> option Api.TaxRateResponse.
Variable Do : nat -> Api.Query -> Api.Exchange.
Variable order : MapOrder.

(** Lines 149-154:
    [for _, rec := range records { for juris, tax := range rec.Taxes {
       jurisTotals[juris] += tax } }]. *)
Definition addTax (juris : string) (tax : float) (jurisTotals : gmap string float)
    : gmap string float :=
  <[juris := (default 0%float (jurisTotals !! juris) + tax)%float]> jurisTotals.

Definition jurisTotals (records : list Dynamic.TaxRecord) : gmap string float :=
  fold_left
    (fun totals rec => rangeMap order siteTotals (Dynamic.Taxes rec) addTax totals)
    records ∅.

(** due_by_charge.csv (lines 102-128) and due_by_jurisdiction.csv (lines
    158-167), the two entries of the archive. *)
Definition dueByCharge (records : list Dynamic.TaxRecord) : list (list string) :=
  Dynamic.output order records.

Definition dueByJurisdiction (records : list Dynamic.TaxRecord) : list (list string) :=
  let totals := jurisTotals records in
  ["Jurisdiction"; "total"]%string ::
  rangeMap order siteJurisTotals totals
    (fun juris total rows => rows ++ [[juris; Go.Sprintf_2f total]]) [].

Definition archive (records : list Dynamic.TaxRecord)
    : list (string * list (list string)) :=
  [("due_by_charge.csv"%string, dueByCharge records);
   ("due_by_jurisdiction.csv"%string, dueByJurisdiction records)].

(** [taxRatesHandler] (lines 70-207). *)
Definition taxRatesHandler (Method : string) (upload : Http.Upload)
    : list LogLine * Http.Reply :=
  if negb (String.eqb Method "POST") then ([], Http.MethodNotAllowed)
  else
    match upload with
    | Http.BadForm => ([], Http.BadRequest "Error parsing form")
    | Http.NoFile => ([], Http.BadRequest "Error retrieving file")
    | Http.Uploaded file =>
      match Dynamic.processCSV ParseFloat Unmarshal Do order file with
      | (log, inl err) => (log, Http.InternalServerError err)
      | (log, inr records) => (log, Http.ZipFile "tax_results.zip" (archive records))
      end
    end.
End Handler.

End Dual.

(** ** src/unnamed/part_000 and part_002: JSON rates as numbers

    The two files differ in how the table is delivered (a file, an HTTP
    reply); [processCSV], [scrapeTaxRates] and the table have the same text. *)
Module JsonFloat.

Record TaxRecord := {
  Client : string;
  Charge : float;
  Street : string;
  City : string;
  State : string;
  Zip : string;
  CityTax : float;
  CountyTax : float;
  StateTax : float
}.

Record Rate := {
  Jurisdiction : string;
  Type_ : string;
  Rate_ : float
}.

Record TaxRateResponse := {
  Rates : list Rate;
  TotalRate : float
}.

(** What [client.Do] brings back: an error, or a status and a body that
    [json.NewDecoder(resp.Body).Decode] reads. *)
Inductive Exchange :=
| DoFailed (e : string)
| Replied (status : Z) (body : string).

Definition expected : list string :=
  ["client"; "charge"; "street address"; "city"; "State"; "zip code"]%string.

Section Program.
Variable ParseFloat : string -> option float.
Variable Decode : string -> option TaxRateResponse.
Variable thisYear : Z.
Variable Do : nat -> Api.Query -> Exchange.

Definition rateStep (st : float * float * float) (rate : Rate) : float * float * float :=
  let '(cityRate, countyRate, stateRate) := st in
  if String.eqb (Type_ rate) "STATE" then (cityRate, countyRate, Rate_ rate)
  else if String.eqb (Type_ rate) "COUNTY" then (cityRate, Rate_ rate, stateRate)
  else if String.eqb (Type_ rate) "CITY" then (Rate_ rate, countyRate, stateRate)
  else (cityRate, countyRate, stateRate).

Definition scrapeTaxRates (n : nat) (street city state zip : string)
    : LookupError + float * float * float :=
  let q := {| Api.q_state := state; Api.q_city := city; Api.q_zipcode := zip;
              Api.q_street := street; Api.q_quarter := 1; Api.q_year := thisYear |} in
  match Do n q with
  | DoFailed e => inl (FetchFailed e)
  | Replied status body =>
    if negb (status =? Api.StatusOK) then inl (UnexpectedStatus status EmptyString)
    else
      match Decode body with
      | None => inl (BadJSON EmptyString)
      | Some taxData =>
        let '(cityRate, countyRate, stateRate) :=
          fold_left rateStep (Rates taxData) (0%float, 0%float, 0%float) in
        if (stateRate =? 0)%float then inl NoStateRate
        else inr (cityRate, countyRate, stateRate)
      end
  end.

(** The body of the loop of [processCSV] (part_000 lines 103-126, part_002
    lines 110-133): the fields are used as read. *)
Definition processRow (n : nat) (row : list string) : Error + TaxRecord :=
  match ParseFloat (field 1 row) with
  | None => inl (InvalidCharge (field 0 row) (field 1 row))
  | Some charge =>
    let rec := {| Client := field 0 row; Charge := charge; Street := field 2 row;
                  City := field 3 row; State := field 4 row; Zip := field 5 row;
                  CityTax := 0; CountyTax := 0; StateTax := 0 |} in
    match scrapeTaxRates n (Street rec) (City rec) (State rec) (Zip rec) with
    | inl err => inl (ScrapeFailed (Client rec) err)
    | inr (cityRate, countyRate, stateRate) =>
      inr {| Client := Client rec; Charge := Charge rec; Street := Street rec;
             City := City rec; State := State rec; Zip := Zip rec;
             CityTax := charge * cityRate;
             CountyTax := charge * countyRate;
             StateTax := charge * stateRate |}
    end
  end.

Fixpoint loop (rest : list Csv.ReadResult) (records : list TaxRecord)
    : Error + list TaxRecord :=
  match rest with
  | [] => inr records
  | Csv.Failed e :: _ => inl (ReadError e)
  | Csv.Fields row :: rest' =>
    match processRow (length records) row with
    | inl err => inl err
    | inr rec => loop rest' (records ++ [rec])
    end
  end.

Definition processCSV (file : list Csv.Item) : Error + list TaxRecord :=
  match Csv.reads file with
  | [] => inl EndOfFile
  | Csv.Failed e :: _ => inl (ReadError e)
  | Csv.Fields header :: rest =>
    if negb (equal header expected) then inl (InvalidHeader header expected)
    else loop rest []
  end.
End Program.

End JsonFloat.

(** ** src/unnamed/part_003: rates scraped from the locator's page *)
Module Scraper.

(** The three texts [doc.Find(...).Text()] extracts from the page fetched for
    an address (lines 203-205). *)
Record Page := {
  localStr : string;
  countyStr : string;
  stateStr : string
}.

Section Program.
Variable ParseFloat : string -> option float.
(** The page the locator sends back for an address, or the error of the
    request or of the HTML parser. *)
Variable fetch : string -> string + Page.

(** [scrapeTaxRates] (lines 176-222). *)
Definition scrapeTaxRates (address : string) : string + float * float * float :=
  match fetch address with
  | inl err => inl err
  | inr doc =>
    let local :=
      match ParseFloat (Go.TrimSpace (localStr doc)) with
      | Some r => r
      | None => 0.02%float
      end in
    let county :=
      match ParseFloat (Go.TrimSpace (countyStr doc)) with
      | Some r => r
      | None => 0.005%float
      end in
    let state :=
      match ParseFloat (Go.TrimSpace (stateStr doc)) with
      | Some r => r
      | None => 0.0625%float
      end in
    inr (local, county, state)
  end.

(** The work of one goroutine of [processCSV] (lines 125-151): the row sent
    on the results channel.  A row carries client, date, address, charge. *)
Definition processRow (row : list string) : list string :=
  if (length row <? 4)%nat then row ++ ["Error: Incomplete row"; ""; ""]%string
  else
    match ParseFloat (field 3 row) with
    | None => row ++ ["Error: Invalid charge"; ""; ""]%string
    | Some charge =>
      match scrapeTaxRates (field 2 row) with
      | inl err => row ++ [("Error: " ++ err)%string; ""%string; ""%string]
      | inr (localRate, countyRate, stateRate) =>
        row ++ [Go.Sprintf_2f (charge * localRate);
                Go.Sprintf_2f (charge * countyRate);
                Go.Sprintf_2f (charge * stateRate)]
      end
    end.
End Program.

(** [reader.ReadAll]: the records up to the end of the file, or the first
    error. *)
Fixpoint ReadAll (results : list Csv.ReadResult) : string + list (list string) :=
  match results with
  | [] => inr []
  | Csv.Failed e :: _ => inl e
  | Csv.Fields row :: rest =>
    match ReadAll rest with
    | inl e => inl e
    | inr records => inr (row :: records)
    end
  end.

Section Table.
Variable ParseFloat : string -> option float.
Variable fetch : string -> string + Page.
Variable arrival : Arrival.

(** [processCSV] (lines 79-174), as far as the table it writes to the new
    file: the header and the rows of the goroutines as they arrive.  The
    errors of the file system are left out. *)
Definition processCSV (file : list Csv.Item) : string + list (list string) :=
  match ReadAll (Csv.reads file) with
  | inl err => inl err
  | inr records =>
    if (length records <? 2)%nat then inl "CSV is empty or lacks data rows"%string
    else
      let header := hd [] records ++ ["LocalTax"; "CountyTax"; "StateTax"]%string in
      inr (header :: arrive arrival (map (processRow ParseFloat fetch) (tl records)))
  end.
End Table.

End Scraper.

(** ** Running the embedding *)
Module Run.

Definition entry (name type rate : string) : Api.RateEntry :=
  {| Api.JurisName := name; Api.JurisType := type; Api.JurisRate := rate |}.

Definition reply (street city zip : string) (rates : list Api.RateEntry) : Api.TaxRateResponse :=
  {| Api.TaxRates := rates; Api.TotalTaxRate := ""; Api.Street := street;
     Api.City := city; Api.ZipCode := zip; Api.GisReturnCode := "P" |}.

(** A rate service whose every reply is [200] with the body that
    [Unmarshal] reads as [taxData]. *)
Definition service (n : nat) (q : Api.Query) : Api.Exchange := Api.Replied 200 "body".
Definition unmarshalAs (taxData : Api.TaxRateResponse) (body : string)
    : option Api.TaxRateResponse := Some taxData.

Definition austin : Api.TaxRateResponse :=
  reply "123 MAIN ST" "AUSTIN" "78701"
    [entry "TEXAS" "STATE" "0.0625"; entry "TRAVIS" "COUNTY" "0.0050";
     entry "AUSTIN" "CITY" "0.0200"].

Definition john : list string :=
  ["John"; "02/22/2025"; "100.00"; "123 Main St"; "Austin"; "TX"; "78701"]%string.

(** The same for the versions whose replies carry numbers. *)
Definition serviceJ (n : nat) (q : Api.Query) : JsonFloat.Exchange :=
  JsonFloat.Replied 200 "body".
Definition decodeAs (taxData : JsonFloat.TaxRateResponse) (body : string)
    : option JsonFloat.TaxRateResponse := Some taxData.
Definition austinJ : JsonFloat.TaxRateResponse :=
  {| JsonFloat.Rates :=
       [{| JsonFloat.Jurisdiction := "TEXAS"; JsonFloat.Type_ := "STATE";
           JsonFloat.Rate_ := 0.0625 |};
        {| JsonFloat.Jurisdiction := "AUSTIN"; JsonFloat.Type_ := "CITY";
           JsonFloat.Rate_ := 0.02 |}];
     JsonFloat.TotalRate := 0.0825 |}.

Definition padded : list string :=
  [" John "; "100.00"; "123 Main St"; "Austin"; "TX"; "78701"]%string.
Definition paddedCharge : list string :=
  ["John"; " 100.00"; "123 Main St"; "Austin"; "TX"; "78701"]%string.
Definition refund : list string :=
  ["John"; "-5.00"; "123 Main St"; "Austin"; "TX"; "78701"]%string.

(** A reply with an entry whose rate is no number. *)
Definition marfa : Api.TaxRateResponse :=
  reply "1 ELM ST" "MARFA" "79843"
    [entry "TEXAS" "STATE" "0.0625"; entry "MARFA" "CITY" "n/a";
     entry "PRESIDIO" "COUNTY" "0.0050"].


(** A page of the locator without the three rates. *)
Definition blank : Scraper.Page :=
  {| Scraper.localStr := ""; Scraper.countyStr := ""; Scraper.stateStr := "" |}.

(** A service that answers the second request of a run with a status of
    500. *)
Definition failing (n : nat) (q : Api.Query) : Api.Exchange :=
  if (n =? 1)%nat then Api.Replied 500 "Internal Server Error"
  else Api.Replied 200 "body".

Definition john6 : list string :=
  ["John"; "100.00"; "123 Main St"; "Austin"; "TX"; "78701"]%string.
Definition jane6 : list string :=
  ["Jane"; "40.00"; "1 Elm St"; "Marfa"; "TX"; "79843"]%string.
Definition short : list string :=
  ["Jane"; "40.00"; "1 Elm St"; "Marfa"; "TX"]%string.

(** A page of the locator with its three rates. *)
Definition page : Scraper.Page :=
  {| Scraper.localStr := " 0.02 "; Scraper.countyStr := "0.005";
     Scraper.stateStr := "0.0625" |}.

Definition header6 : Csv.Item :=
  Csv.Row ["client"; "charge"; "street address"; "city"; "State"; "zip code"]%string.
Definition header7 : Csv.Item :=
  Csv.Row ["client"; "date"; "charge"; "street address"; "city"; "State"; "zip code"]%string.

End Run.


(** ** Definitions the statements use *)

(** The loop of [processCSV] has the same text in every version; [batch] is
    that loop over the version's row function. *)
Section BatchLoop.
Context {R : Type} (processRow : nat -> list string -> list LogLine * (Error + R)).

Fixpoint batch (rest : list Csv.ReadResult) (records : list R) (log : list LogLine)
    : list LogLine * (Error + list R) :=
  match rest with
  | [] => (log, inr records)
  | Csv.Failed e :: _ => (log, inl (ReadError e))
  | Csv.Fields row :: rest' =>
    match processRow (length records) row with
    | (l, inl err) => (log ++ l, inl err)
    | (l, inr rec) => batch rest' (records ++ [rec]) (log ++ l)
    end
  end.
End BatchLoop.

(** The jurisdictions of a batch: the names in the tax map of some record. *)
Definition jurisdictions (records : list Dynamic.TaxRecord) : gset string :=
  ⋃ (map (fun rec => dom (Dynamic.Taxes rec)) records).

(** The sum of the amounts of jurisdiction [j] over the records, in their
    order, from zero; a record without [j] adds nothing. *)
Definition taxSum (j : string) (records : list Dynamic.TaxRecord) : float :=
  fold_left
    (fun sum rec => match Dynamic.Taxes rec !! j with
                    | Some tax => (sum + tax)%float
                    | None => sum
                    end)
    records 0%float.


(** A date component lies in a range when it reads as an integer of the
    range. *)
Definition inRange (lo hi : Z) (s : string) : bool :=
  match Go.Atoi s with
  | Some n => (lo <=? n) && (n <=? hi)
  | None => false
  end.

Definition atLeast (lo : Z) (s : string) : bool :=
  match Go.Atoi s with
  | Some n => lo <=? n
  | None => false
  end.

(** A string without white space at either end. *)
Definition clean (s : string) : Prop :=
  Go.hasLeadingSpace s = false /\ Go.hasTrailingSpace s = false.

(** An entry of a reply is usable when its rate string parses. *)
Definition usable (ParseFloat : string -> option float) (rate : Api.RateEntry) : bool :=
  match ParseFloat (Api.JurisRate rate) with Some _ => true | None => false end.

(** The rate of the last usable entry whose [key] is [t], if there is one. *)
Definition lastBy (key : Api.RateEntry -> string) (ParseFloat : string -> option float)
    (t : string) (rates : list Api.RateEntry) : option float :=
  fold_left
    (fun found rate =>
       if String.eqb (key rate) t
       then match ParseFloat (Api.JurisRate rate) with Some r => Some r | None => found end
       else found)
    rates None.

(** By type, for the versions with three fields; by name, for the map. *)
Definition lastRate := lastBy Api.JurisType.
Definition lastNamed := lastBy Api.JurisName.

(** One warning per entry that is not usable, in the order of the reply. *)
Definition warnings (key : Api.RateEntry -> string) (ParseFloat : string -> option float)
    (rates : list Api.RateEntry) : list LogLine :=
  map (fun rate => LogRateParseFailure (Api.JurisRate rate) (key rate))
      (List.filter (fun rate => negb (usable ParseFloat rate)) rates).


(** The three types of entry that the three-field versions read. *)
Definition canonicalType (t : string) : bool :=
  String.eqb t "STATE" || String.eqb t "COUNTY" || String.eqb t "CITY".

(** The lines of a log that record a request. *)
Definition isRequest (line : LogLine) : bool :=
  match line with LogRequest _ => true | _ => false end.

(** The request main.go makes for a record: its address, in the first
    quarter of the current year. *)
Definition requestOf (thisYear : Z) (rec : Fixed.TaxRecord) : Api.Query :=
  {| Api.q_state := Fixed.State rec; Api.q_city := Fixed.City rec;
     Api.q_zipcode := Fixed.Zip rec; Api.q_street := Fixed.Street rec;
     Api.q_quarter := 1; Api.q_year := thisYear |}.

(** The rate of the last entry of type [t] in a reply that carries numbers,
    if there is one. *)
Definition lastTyped (t : string) (rates : list JsonFloat.Rate) : option float :=
  fold_left
    (fun found rate =>
       if String.eqb (JsonFloat.Type_ rate) t then Some (JsonFloat.Rate_ rate) else found)
    rates None.


(** * Properties *)

(** ** The library layer *)
Section TrimSpaceFacts.
Import Go.

Lemma spaceWidth_le bs : (spaceWidth bs <= length bs)%nat.
Proof.
  destruct bs as [|b1 [|b2 [|b3 r]]]; simpl;
    repeat match goal with |- context [if ?c then _ else _] => destruct c end;
    simpl; lia.
Qed.

Lemma spaceWidthLast_le bs : (spaceWidthLast bs <= length bs)%nat.
Proof.
  destruct bs as [|b1 [|b2 [|b3 r]]]; cbn -[N.eqb N.leb];
    repeat match goal with |- context [if ?c then _ else _] => destruct c end;
    simpl; lia.
Qed.

(** Enough fuel leaves no white-space rune at the head. *)
Lemma dropSpaces_done (width : list N -> nat) :
  (forall bs, (width bs <= length bs)%nat) ->
  forall n bs, (length bs <= n)%nat -> width (dropSpaces width n bs) = 0%nat.
Proof.
  intros Hle n. induction n as [|n IH]; intros bs Hn; simpl.
  - specialize (Hle bs). lia.
  - destruct (width bs) as [|w] eqn:E; [exact E|].
    apply IH. rewrite length_drop. lia.
Qed.

Lemma dropSpaces_drop width n bs : exists k, dropSpaces width n bs = drop k bs.
Proof.
  revert bs. induction n as [|n IH]; intros bs; simpl.
  - exists 0%nat. reflexivity.
  - destruct (width bs) as [|w]; [exists 0%nat; reflexivity|].
    destruct (IH (drop (S w) bs)) as [k Hk]. exists (S w + k)%nat.
    rewrite Hk. apply drop_drop.
Qed.

Lemma TrimRight_take bs : exists k, TrimRight bs = take k bs.
Proof.
  unfold TrimRight.
  destruct (dropSpaces_drop spaceWidthLast (length bs) (rev bs)) as [k ->].
  exists (length bs - k)%nat.
  rewrite skipn_rev, rev_involutive. reflexivity.
Qed.

Lemma TrimLeft_drop bs : exists k, TrimLeft bs = drop k bs.
Proof. apply dropSpaces_drop. Qed.

(** The head test reads at most three bytes, so what it finds at the head of
    a prefix it finds at the head of the whole. *)
Lemma spaceWidth_take k bs :
  spaceWidth (take k bs) <> 0%nat -> spaceWidth bs <> 0%nat.
Proof.
  destruct bs as [|b1 [|b2 [|b3 r]]]; destruct k as [|[|[|k]]];
    cbn -[N.eqb N.leb]; try congruence;
    repeat match goal with |- context [if ?c then _ else _] => destruct c end;
    congruence.
Qed.

Lemma TrimLeft_no_space bs : spaceWidth (TrimLeft bs) = 0%nat.
Proof. apply dropSpaces_done; [apply spaceWidth_le | reflexivity]. Qed.

Lemma TrimRight_no_space bs : spaceWidthLast (rev (TrimRight bs)) = 0%nat.
Proof.
  unfold TrimRight. rewrite rev_involutive.
  apply dropSpaces_done; [apply spaceWidthLast_le | rewrite length_rev; reflexivity].
Qed.

Lemma bytes_ofBytes_map l : bytes (ofBytes (map N_of_ascii l)) = map N_of_ascii l.
Proof.
  unfold bytes, ofBytes. rewrite map_map.
  rewrite (map_ext _ (fun a => a)) by apply ascii_N_embedding.
  rewrite map_id, list_ascii_of_string_of_list_ascii. reflexivity.
Qed.

Lemma bytes_TrimSpace s : bytes (TrimSpace s) = TrimRight (TrimLeft (bytes s)).
Proof.
  unfold TrimSpace.
  destruct (TrimRight_take (TrimLeft (bytes s))) as [k Hk].
  destruct (TrimLeft_drop (bytes s)) as [d Hd].
  rewrite Hk, Hd. unfold bytes at 2 3.
  rewrite <- !fmap_drop, <- !fmap_take. apply bytes_ofBytes_map.
Qed.

Lemma TrimSpace_no_leading s : hasLeadingSpace (TrimSpace s) = false.
Proof.
  unfold hasLeadingSpace. rewrite bytes_TrimSpace.
  destruct (TrimRight_take (TrimLeft (bytes s))) as [k ->].
  destruct (spaceWidth (take k (TrimLeft (bytes s)))) eqn:E; [reflexivity|].
  exfalso. apply (spaceWidth_take k (TrimLeft (bytes s))); [lia|].
  apply TrimLeft_no_space.
Qed.

Lemma TrimSpace_no_trailing s : hasTrailingSpace (TrimSpace s) = false.
Proof.
  unfold hasTrailingSpace. rewrite bytes_TrimSpace, TrimRight_no_space. reflexivity.
Qed.
End TrimSpaceFacts.

(** ** Loops over maps *)
Section RangeFacts.
Context (o : MapOrder) (site : nat).

Lemma rangeKeys_elem_of (X : gset string) k : k ∈ rangeKeys o site X <-> k ∈ X.
Proof. rewrite (rangeKeys_perm o site X). apply elem_of_elements. Qed.

Lemma rangeKeys_NoDup (X : gset string) : NoDup (rangeKeys o site X).
Proof. rewrite (rangeKeys_perm o site X). apply NoDup_elements. Qed.

(** A loop that stores [f v] under every key does so whatever the order. *)
Lemma rangeMap_insert {V W : Type} (f : V -> W) (m : gmap string V) (acc : gmap string W) j :
  rangeMap o site m (fun k v st => <[k := f v]> st) acc !! j =
  match m !! j with Some v => Some (f v) | None => acc !! j end.
Proof.
  unfold rangeMap.
  assert (H : forall ks (st : gmap string W),
    fold_left (fun st k => match m !! k with Some v => <[k := f v]> st | None => st end) ks st !! j
    = match m !! j with
      | Some v => if decide (j ∈ ks) then Some (f v) else st !! j
      | None => st !! j
      end).
  { induction ks as [|k ks IH]; intros st; cbn [fold_left].
    - destruct (m !! j); [case_decide as Hin; [inversion Hin|]|]; reflexivity.
    - rewrite IH. destruct (m !! j) as [v|] eqn:Ej.
      + destruct (decide (k = j)) as [->|Hne].
        * rewrite Ej, lookup_insert_eq. repeat case_decide; set_solver.
        * assert (Hst : (match m !! k with
                         | Some v => <[k := f v]> st
                         | None => st end) !! j = st !! j).
          { destruct (m !! k); [apply lookup_insert_ne; exact Hne | reflexivity]. }
          rewrite Hst. repeat case_decide; set_solver.
      + destruct (decide (k = j)) as [->|Hne]; [rewrite Ej; reflexivity|].
        destruct (m !! k); [rewrite lookup_insert_ne by exact Hne|]; reflexivity. }
  rewrite H. destruct (m !! j) as [v|] eqn:Ej; [|reflexivity].
  case_decide as Hin; [reflexivity|].
  exfalso. apply Hin, rangeKeys_elem_of, elem_of_dom. rewrite Ej. eauto.
Qed.

(** A loop that collects the keys collects the domain. *)
Lemma rangeMap_keys {V : Type} (m : gmap string V) (acc : gset string) :
  rangeMap o site m (fun k _ st => {[k]} ∪ st) acc = acc ∪ dom m.
Proof.
  unfold rangeMap.
  assert (H : forall ks (st : gset string),
    fold_left (fun st k => match m !! k with Some _ => {[k]} ∪ st | None => st end) ks st
    = st ∪ (list_to_set ks ∩ dom m)).
  { induction ks as [|k ks IH]; intros st; simpl.
    - set_solver.
    - rewrite IH. destruct (m !! k) as [v|] eqn:Ek.
      + assert (k ∈ dom m) by (apply elem_of_dom; rewrite Ek; eauto). set_solver.
      + assert (k ∉ dom m) by (rewrite elem_of_dom, Ek; intros [? ?]; discriminate).
        set_solver. }
  rewrite H. apply set_eq. intros x.
  rewrite !elem_of_union, elem_of_intersection, elem_of_list_to_set, rangeKeys_elem_of.
  tauto.
Qed.

(** A loop that updates the entry of every key once, reading the entry it
    replaces. *)
Lemma rangeMap_update {V W : Type} (g : option W -> V -> W)
    (m : gmap string V) (acc : gmap string W) j :
  rangeMap o site m (fun k v st => <[k := g (st !! k) v]> st) acc !! j =
  match m !! j with Some v => Some (g (acc !! j) v) | None => acc !! j end.
Proof.
  unfold rangeMap.
  assert (H : forall ks (st : gmap string W), NoDup ks ->
    fold_left (fun st k => match m !! k with
                           | Some v => <[k := g (st !! k) v]> st
                           | None => st end) ks st !! j
    = match m !! j with
      | Some v => if decide (j ∈ ks) then Some (g (st !! j) v) else st !! j
      | None => st !! j
      end).
  { induction ks as [|k ks IH]; intros st Hnd; cbn [fold_left].
    - destruct (m !! j); [case_decide as Hin; [inversion Hin|]|]; reflexivity.
    - apply NoDup_cons in Hnd as [Hk Hnd]. rewrite (IH _ Hnd).
      destruct (decide (k = j)) as [->|Hne].
      + destruct (m !! j) as [v|] eqn:Ej; [|reflexivity].
        rewrite lookup_insert_eq. repeat case_decide; set_solver.
      + assert (Hst : (match m !! k with
                       | Some v => <[k := g (st !! k) v]> st
                       | None => st end) !! j = st !! j).
        { destruct (m !! k); [apply lookup_insert_ne; exact Hne | reflexivity]. }
        rewrite Hst. destruct (m !! j) as [v|]; [|reflexivity].
        repeat case_decide; set_solver. }
  rewrite (H _ _ (rangeKeys_NoDup _)). destruct (m !! j) as [v|] eqn:Ej; [|reflexivity].
  case_decide as Hin; [reflexivity|].
  exfalso. apply Hin, rangeKeys_elem_of, elem_of_dom. rewrite Ej. eauto.
Qed.

(** A loop that appends one item per key appends them in the order of the
    visit. *)
Lemma rangeMap_append {V A : Type} (f : string -> V -> A) (m : gmap string V) (acc : list A) :
  rangeMap o site m (fun k v st => st ++ [f k v]) acc =
  acc ++ omap (fun k => f k <$> m !! k) (rangeKeys o site (dom m)).
Proof.
  unfold rangeMap. generalize (rangeKeys o site (dom m)) as ks. intros ks. revert acc.
  induction ks as [|k ks IH]; intros acc; simpl.
  - symmetry. apply app_nil_r.
  - rewrite IH. destruct (m !! k); simpl; [rewrite <- app_assoc|]; reflexivity.
Qed.
End RangeFacts.

Lemma map_fmap {A B : Type} (f : A -> B) (l : list A) : map f l = f <$> l.
Proof. reflexivity. Qed.

Lemma fold_append {A B : Type} (f : A -> B) (l : list A) (acc : list B) :
  fold_left (fun st x => st ++ [f x]) l acc = acc ++ map f l.
Proof.
  revert acc. induction l as [|x l IH]; intros acc; simpl.
  - symmetry. apply app_nil_r.
  - rewrite IH, <- app_assoc. reflexivity.
Qed.

(** ** Header and quarter *)
Lemma equal_spec (a b : list string) : equal a b = true <-> a = b.
Proof.
  unfold equal. split.
  - destruct (length a =? length b)%nat eqn:El; simpl; [|discriminate].
    apply Nat.eqb_eq in El. intros H.
    apply (nth_ext _ _ EmptyString EmptyString El). intros i Hi.
    rewrite forallb_forall in H. apply String.eqb_eq, H, in_seq. lia.
  - intros ->. rewrite Nat.eqb_refl. simpl.
    apply forallb_forall. intros i _. apply String.eqb_refl.
Qed.

Lemma equal_false (a b : list string) : equal a b = false <-> a <> b.
Proof.
  rewrite <- equal_spec. destruct (equal a b); split; congruence.
Qed.

Lemma reads_cons header file :
  Csv.reads (Csv.Row header :: file)
  = Csv.Fields header :: map (Csv.Read (length header)) file.
Proof. unfold Csv.reads. simpl. rewrite Nat.eqb_refl. reflexivity. Qed.

Lemma quarter_div (month : Z) : 1 <= month -> quarter month = (month - 1) / 3 + 1.
Proof. intros H. unfold quarter. rewrite Z.quot_div_nonneg by lia. reflexivity. Qed.

(** ** The rows of a batch *)
Section Batch.
Context {R : Type} (processRow : nat -> list string -> list LogLine * (Error + R)).

(** The rows after a prefix that went through are processed from the
    records and the log the prefix left. *)
Lemma batch_app xs ys records log log' records' :
  batch processRow xs records log = (log', inr records') ->
  batch processRow (xs ++ ys) records log = batch processRow ys records' log'.
Proof.
  revert records log. induction xs as [|[row|e] xs IH]; intros records log H; simpl in *.
  - injection H as <- <-. reflexivity.
  - destruct (processRow (length records) row) as [l [err|rec]]; [discriminate|].
    apply IH, H.
  - discriminate.
Qed.

(** A batch that returns records returns one per row, each the result of
    its row, after the records it started from. *)
Lemma batch_inr rest records log log' records' :
  batch processRow rest records log = (log', inr records') ->
  exists rows new,
    rest = map Csv.Fields rows /\ records' = records ++ new /\
    Forall2 (fun row rec => exists n l, processRow n row = (l, inr rec)) rows new.
Proof.
  revert records log. induction rest as [|[row|e] rest IH]; intros records log H; simpl in *.
  - injection H as <- <-. exists [], []. rewrite app_nil_r. repeat split. constructor.
  - destruct (processRow (length records) row) as [l [err|rec]] eqn:E; [discriminate|].
    destruct (IH _ _ H) as (rows & new & -> & -> & HF).
    exists (row :: rows), (rec :: new). rewrite <- app_assoc. repeat split.
    constructor; [eauto | exact HF].
  - discriminate.
Qed.

(** The first row that fails ends the batch with its error. *)
Lemma batch_fail row l err rest records log :
  processRow (length records) row = (l, inl err) ->
  batch processRow (Csv.Fields row :: rest) records log = (log ++ l, inl err).
Proof. intros H. simpl. rewrite H. reflexivity. Qed.
End Batch.

Lemma Fixed_loop_batch PF TU UM yr Do rest records log :
  Fixed.loop PF TU UM yr Do rest records log
  = batch (Fixed.processRow PF TU UM yr Do) rest records log.
Proof. reflexivity. Qed.

Lemma FixedDate_loop_batch PF TU UM Do rest records log :
  FixedDate.loop PF TU UM Do rest records log
  = batch (FixedDate.processRow PF TU UM Do) rest records log.
Proof. reflexivity. Qed.

Lemma Dynamic_loop_batch PF UM Do o rest records log :
  Dynamic.loop PF UM Do o rest records log
  = batch (Dynamic.processRow PF UM Do o) rest records log.
Proof. reflexivity. Qed.

Lemma field_trimmed i row : field i (map Go.TrimSpace row) = Go.TrimSpace (field i row).
Proof. unfold field. apply (map_nth Go.TrimSpace row EmptyString i). Qed.

(** ** What a row that goes through leaves in its record *)
Lemma Fixed_processRow_inr PF TU UM yr Do n row0 log rec :
  Fixed.processRow PF TU UM yr Do n row0 = (log, inr rec) ->
  let row := map Go.TrimSpace row0 in
  exists charge cityRate countyRate stateRate,
    PF (field 1 row) = Some charge /\
    Fixed.scrapeTaxRates PF TU UM yr Do n (field 2 row) (field 3 row) (field 4 row) (field 5 row)
    = (log, inr (cityRate, countyRate, stateRate)) /\
    rec = {| Fixed.Client := field 0 row; Fixed.Charge := charge;
             Fixed.Street := field 2 row; Fixed.City := field 3 row;
             Fixed.State := field 4 row; Fixed.Zip := field 5 row;
             Fixed.CityTax := charge * cityRate;
             Fixed.CountyTax := charge * countyRate;
             Fixed.StateTax := charge * stateRate |}.
Proof.
  unfold Fixed.processRow. cbn zeta. intros H.
  destruct (PF (field 1 (map Go.TrimSpace row0))) as [charge|]; [|discriminate].
  cbn [Fixed.Street Fixed.City Fixed.State Fixed.Zip Fixed.Client Fixed.Charge] in H.
  destruct (Fixed.scrapeTaxRates _ _ _ _ _ _ _ _ _ _) as [l [err|[[c k] st]]] eqn:E;
    [discriminate|].
  injection H as -> <-. exists charge, c, k, st. repeat split.
Qed.

Lemma FixedDate_processRow_inr PF TU UM Do n row0 log rec :
  FixedDate.processRow PF TU UM Do n row0 = (log, inr rec) ->
  let row := map Go.TrimSpace row0 in
  exists month day year charge cityRate countyRate stateRate,
    parseDate (field 0 row) (field 1 row) = inr (month, day, year) /\
    PF (field 2 row) = Some charge /\
    FixedDate.scrapeTaxRates PF TU UM Do n (field 3 row) (field 4 row) (field 5 row)
      (field 6 row) (quarter month) year
    = (log, inr (cityRate, countyRate, stateRate)) /\
    rec = {| FixedDate.Client := field 0 row; FixedDate.Date := field 1 row;
             FixedDate.Charge := charge;
             FixedDate.Street := field 3 row; FixedDate.City := field 4 row;
             FixedDate.State := field 5 row; FixedDate.Zip := field 6 row;
             FixedDate.CityTax := charge * cityRate;
             FixedDate.CountyTax := charge * countyRate;
             FixedDate.StateTax := charge * stateRate |}.
Proof.
  unfold FixedDate.processRow. cbn zeta. intros H.
  destruct (parseDate _ _) as [e|[[m d] y]]; [discriminate|].
  destruct (PF (field 2 (map Go.TrimSpace row0))) as [charge|]; [|discriminate].
  cbn [FixedDate.Street FixedDate.City FixedDate.State FixedDate.Zip FixedDate.Client
       FixedDate.Charge FixedDate.Date] in H.
  destruct (FixedDate.scrapeTaxRates _ _ _ _ _ _ _ _ _ _ _) as [l [err|[[c k] st]]] eqn:E;
    [discriminate|].
  injection H as -> <-. exists m, d, y, charge, c, k, st. repeat split; exact E.
Qed.

Lemma Dynamic_processRow_inr PF UM Do o n row0 log rec :
  Dynamic.processRow PF UM Do o n row0 = (log, inr rec) ->
  let row := map Go.TrimSpace row0 in
  exists month day year charge taxRates,
    parseDate (field 0 row) (field 1 row) = inr (month, day, year) /\
    PF (field 2 row) = Some charge /\
    Dynamic.scrapeTaxRates PF UM Do n (field 3 row) (field 4 row) (field 5 row)
      (field 6 row) (quarter month) year
    = (log, inr taxRates) /\
    rec = {| Dynamic.Client := field 0 row; Dynamic.Date := field 1 row;
             Dynamic.Charge := charge;
             Dynamic.Street := field 3 row; Dynamic.City := field 4 row;
             Dynamic.State := field 5 row; Dynamic.Zip := field 6 row;
             Dynamic.Taxes := Dynamic.amounts o charge taxRates |}.
Proof.
  unfold Dynamic.processRow. cbn zeta. intros H.
  destruct (parseDate _ _) as [e|[[m d] y]]; [discriminate|].
  destruct (PF (field 2 (map Go.TrimSpace row0))) as [charge|]; [|discriminate].
  cbn [Dynamic.Street Dynamic.City Dynamic.State Dynamic.Zip Dynamic.Client
       Dynamic.Charge Dynamic.Date] in H.
  destruct (Dynamic.scrapeTaxRates _ _ _ _ _ _ _ _ _ _) as [l [err|taxRates]] eqn:E;
    [discriminate|].
  injection H as -> <-. exists m, d, y, charge, taxRates. repeat split; exact E.
Qed.

(** ** The reports *)
Lemma elem_of_jurisdictions j records :
  j ∈ jurisdictions records <->
  exists rec, rec ∈ records /\ is_Some (Dynamic.Taxes rec !! j).
Proof.
  unfold jurisdictions. rewrite elem_of_union_list. split.
  - intros (X & HX & Hj). apply list_elem_of_fmap in HX as (rec & -> & Hrec).
    exists rec. split; [exact Hrec | apply elem_of_dom, Hj].
  - intros (rec & Hrec & Hj). exists (dom (Dynamic.Taxes rec)). split.
    + apply list_elem_of_fmap. exists rec. split; [reflexivity | exact Hrec].
    + apply elem_of_dom, Hj.
Qed.

Lemma getAllJurisNames_eq o records :
  Dynamic.getAllJurisNames o records
  = rangeKeys o Dynamic.siteJurisSet (jurisdictions records).
Proof.
  unfold Dynamic.getAllJurisNames.
  rewrite (fold_append (fun j => j)), map_id. cbn [app]. f_equal.
  assert (H : forall acc : gset string,
    fold_left
      (fun jurisSet rec =>
         rangeMap o Dynamic.siteRecordTaxes (Dynamic.Taxes rec)
           (fun juris _ jurisSet => {[juris]} ∪ jurisSet) jurisSet)
      records acc = acc ∪ jurisdictions records).
  { unfold jurisdictions. induction records as [|rec records IH]; intros acc; simpl.
    - set_solver.
    - rewrite IH, rangeMap_keys. set_solver. }
  rewrite H. set_solver.
Qed.


Lemma Sprintf_2f_zero : Go.Sprintf_2f 0 = "0.00"%string.
Proof. reflexivity. Qed.

(** The totals, jurisdiction by jurisdiction. *)
Lemma jurisTotals_lookup o records j :
  Dual.jurisTotals o records !! j =
  fold_left
    (fun total rec => match Dynamic.Taxes rec !! j with
                      | Some tax => Some (default 0 total + tax)%float
                      | None => total
                      end)
    records None.
Proof.
  unfold Dual.jurisTotals. rewrite <- (lookup_empty (M := gmap string) (A := float) j).
  generalize (∅ : gmap string float) as acc.
  induction records as [|rec records IH]; intros acc; simpl; [reflexivity|].
  rewrite IH. f_equal. unfold Dual.addTax.
  apply (rangeMap_update o _ (fun old tax => (default 0 old + tax)%float)).
Qed.

Lemma total_fold j records (total : option float) :
  let step := fun total rec => match Dynamic.Taxes rec !! j with
                               | Some tax => Some (default 0 total + tax)%float
                               | None => total
                               end in
  let sumStep := fun sum rec => match Dynamic.Taxes rec !! j with
                                | Some tax => (sum + tax)%float
                                | None => sum
                                end in
  fold_left step records total =
  if decide (is_Some total \/ j ∈ jurisdictions records)
  then Some (fold_left sumStep records (default 0%float total))
  else None.
Proof.
  cbn zeta. revert total. induction records as [|rec records IH]; intros total; simpl.
  - unfold jurisdictions. simpl. case_decide as H.
    + destruct H as [[x ->]|H]; [reflexivity | set_solver].
    + destruct total; [exfalso; apply H; eauto | reflexivity].
  - rewrite IH. unfold jurisdictions. cbn [map union_list]. fold (jurisdictions records).
    destruct (Dynamic.Taxes rec !! j) as [tax|] eqn:E.
    + rewrite decide_True by (left; eauto). rewrite decide_True; [reflexivity|].
      right. apply elem_of_union. left. apply elem_of_dom. rewrite E. eauto.
    + assert (Hn : j ∉ dom (Dynamic.Taxes rec))
        by (rewrite elem_of_dom, E; intros [? ?]; discriminate).
      repeat case_decide; try reflexivity; exfalso; set_solver.
Qed.

(** ** Dates *)
Section DateFacts.
Variables client date : string.
Let parts := Go.Split date "/".

Lemma parseDate_format :
  length parts <> 3%nat -> parseDate client date = inl (InvalidDateFormat client date).
Proof.
  intros H. unfold parseDate. fold parts.
  apply Nat.eqb_neq in H. rewrite H. reflexivity.
Qed.

Lemma parseDate_month :
  length parts = 3%nat -> inRange 1 12 (field 0 parts) = false ->
  parseDate client date = inl (InvalidMonth client date).
Proof.
  intros Hl H. unfold parseDate, inRange in *. fold parts.
  rewrite Hl. cbn [Nat.eqb negb].
  destruct (Go.Atoi (field 0 parts)) as [m|]; [|reflexivity].
  destruct (m <? 1) eqn:E1, (m >? 12) eqn:E2; try reflexivity. lia.
Qed.

Lemma parseDate_day :
  length parts = 3%nat -> inRange 1 12 (field 0 parts) = true ->
  inRange 1 31 (field 1 parts) = false ->
  parseDate client date = inl (InvalidDay client date).
Proof.
  intros Hl Hm H. unfold parseDate, inRange in *. fold parts.
  rewrite Hl. cbn [Nat.eqb negb].
  destruct (Go.Atoi (field 0 parts)) as [m|]; [|discriminate].
  destruct (m <? 1) eqn:E1, (m >? 12) eqn:E2; try lia. cbn [orb].
  destruct (Go.Atoi (field 1 parts)) as [d|]; [|reflexivity].
  destruct (d <? 1) eqn:E3, (d >? 31) eqn:E4; try reflexivity. lia.
Qed.

Lemma parseDate_year :
  length parts = 3%nat -> inRange 1 12 (field 0 parts) = true ->
  inRange 1 31 (field 1 parts) = true -> atLeast 2000 (field 2 parts) = false ->
  parseDate client date = inl (InvalidYear client date).
Proof.
  intros Hl Hm Hd H. unfold parseDate, inRange, atLeast in *. fold parts.
  rewrite Hl. cbn [Nat.eqb negb].
  destruct (Go.Atoi (field 0 parts)) as [m|]; [|discriminate].
  destruct (m <? 1) eqn:E1, (m >? 12) eqn:E2; try lia. cbn [orb].
  destruct (Go.Atoi (field 1 parts)) as [d|]; [|discriminate].
  destruct (d <? 1) eqn:E3, (d >? 31) eqn:E4; try lia. cbn [orb].
  destruct (Go.Atoi (field 2 parts)) as [y|]; [|reflexivity].
  destruct (y <? 2000) eqn:E5; [reflexivity | lia].
Qed.

Lemma parseDate_ok :
  length parts = 3%nat -> inRange 1 12 (field 0 parts) = true ->
  inRange 1 31 (field 1 parts) = true -> atLeast 2000 (field 2 parts) = true ->
  exists month day year,
    parseDate client date = inr (month, day, year)
    /\ Go.Atoi (field 0 parts) = Some month /\ 1 <= month <= 12
    /\ Go.Atoi (field 1 parts) = Some day /\ 1 <= day <= 31
    /\ Go.Atoi (field 2 parts) = Some year /\ 2000 <= year.
Proof.
  intros Hl Hm Hd Hy. unfold parseDate, inRange, atLeast in *. fold parts.
  rewrite Hl. cbn [Nat.eqb negb].
  destruct (Go.Atoi (field 0 parts)) as [m|]; [|discriminate].
  destruct (m <? 1) eqn:E1, (m >? 12) eqn:E2; try lia. cbn [orb].
  destruct (Go.Atoi (field 1 parts)) as [d|]; [|discriminate].
  destruct (d <? 1) eqn:E3, (d >? 31) eqn:E4; try lia. cbn [orb].
  destruct (Go.Atoi (field 2 parts)) as [y|]; [|discriminate].
  destruct (y <? 2000) eqn:E5; [lia|].
  exists m, d, y. repeat (split; [reflexivity || lia|]). lia.
Qed.

(** The four checks decide the outcome. *)
Lemma parseDate_cases :
  (length parts <> 3%nat /\ parseDate client date = inl (InvalidDateFormat client date))
  \/ (length parts = 3%nat /\ inRange 1 12 (field 0 parts) = false
      /\ parseDate client date = inl (InvalidMonth client date))
  \/ (length parts = 3%nat /\ inRange 1 12 (field 0 parts) = true
      /\ inRange 1 31 (field 1 parts) = false
      /\ parseDate client date = inl (InvalidDay client date))
  \/ (length parts = 3%nat /\ inRange 1 12 (field 0 parts) = true
      /\ inRange 1 31 (field 1 parts) = true /\ atLeast 2000 (field 2 parts) = false
      /\ parseDate client date = inl (InvalidYear client date))
  \/ (length parts = 3%nat /\ inRange 1 12 (field 0 parts) = true
      /\ inRange 1 31 (field 1 parts) = true /\ atLeast 2000 (field 2 parts) = true
      /\ exists month day year, parseDate client date = inr (month, day, year)).
Proof.
  destruct (decide (length parts = 3%nat)) as [Hl|Hl];
    [|left; split; [exact Hl | apply parseDate_format, Hl]].
  right. destruct (inRange 1 12 (field 0 parts)) eqn:Hm;
    [|left; repeat split; try assumption; apply parseDate_month; assumption].
  right. destruct (inRange 1 31 (field 1 parts)) eqn:Hd;
    [|left; repeat split; try assumption; apply parseDate_day; assumption].
  right. destruct (atLeast 2000 (field 2 parts)) eqn:Hy;
    [|left; repeat split; try assumption; apply parseDate_year; assumption].
  right. repeat split; try assumption.
  destruct (parseDate_ok Hl Hm Hd Hy) as (m & d & y & H & _). eauto.
Qed.
End DateFacts.

(** An accepted date has its three numbers in range; the quarter asked of
    the rate service is then one of the four. *)
Lemma parseDate_inr client date month day year :
  parseDate client date = inr (month, day, year) ->
  1 <= month <= 12 /\ 1 <= day <= 31 /\ 2000 <= year /\ 1 <= quarter month <= 4.
Proof.
  intros H.
  destruct (parseDate_cases client date)
    as [(_ & Hr)|[(_ & _ & Hr)|[(_ & _ & _ & Hr)|[(_ & _ & _ & _ & Hr)
        |(Hl & Hm & Hd & Hy & _)]]]]; try congruence.
  destruct (parseDate_ok client date Hl Hm Hd Hy)
    as (m & d & y & Hp & _ & Hmr & _ & Hdr & _ & Hyr).
  rewrite Hp in H. injection H as -> -> ->.
  repeat (split; [lia|]). rewrite quarter_div by lia.
  pose proof (Z.div_mod (month - 1) 3 ltac:(lia)).
  pose proof (Z.mod_pos_bound (month - 1) 3 ltac:(lia)). lia.
Qed.



(** ** From the file to the records *)
Lemma reads_fields n file rows :
  map (Csv.Read n) file = map Csv.Fields rows -> file = map Csv.Row rows.
Proof.
  revert rows. induction file as [|it file IH]; intros [|row rows] H; try discriminate.
  - reflexivity.
  - cbn [map] in H. injection H as H1 H2. rewrite (IH _ H2). cbn [map]. f_equal.
    destruct it as [fields|e]; cbn in H1; [|discriminate].
    destruct (length fields =? n)%nat; [|discriminate]. congruence.
Qed.

(** A run that returns records read the expected header and then one row
    per record, each record the result of its row. *)
Ltac processCSV_records H loop_batch :=
  match type of H with
  | context [Csv.reads ?file] =>
    destruct file as [|[header|e] file'];
      [discriminate | | cbn in H; discriminate];
    rewrite reads_cons in H;
    destruct (equal header _) eqn:Eh; cbn [negb] in H; [|discriminate];
    apply equal_spec in Eh; subst header;
    rewrite loop_batch in H;
    let rows := fresh "rows" in
    let new := fresh "new" in
    let Hr := fresh "Hr" in
    let HF := fresh "HF" in
    destruct (batch_inr _ _ _ _ _ _ H) as (rows & new & Hr & -> & HF);
    apply reads_fields in Hr; subst file';
    exists rows; split; [reflexivity | exact HF]
  end.

Lemma Fixed_processCSV_inr PF TU UM yr Do file log records :
  Fixed.processCSV PF TU UM yr Do file = (log, inr records) ->
  exists rows,
    file = Csv.Row Fixed.expected :: map Csv.Row rows /\
    Forall2 (fun row rec => exists n l, Fixed.processRow PF TU UM yr Do n row = (l, inr rec))
            rows records.
Proof.
  intros H. unfold Fixed.processCSV in H. processCSV_records H Fixed_loop_batch.
Qed.

Lemma FixedDate_processCSV_inr PF TU UM Do file log records :
  FixedDate.processCSV PF TU UM Do file = (log, inr records) ->
  exists rows,
    file = Csv.Row FixedDate.expected :: map Csv.Row rows /\
    Forall2 (fun row rec => exists n l, FixedDate.processRow PF TU UM Do n row = (l, inr rec))
            rows records.
Proof.
  intros H. unfold FixedDate.processCSV in H. processCSV_records H FixedDate_loop_batch.
Qed.

Lemma Dynamic_processCSV_inr PF UM Do o file log records :
  Dynamic.processCSV PF UM Do o file = (log, inr records) ->
  exists rows,
    file = Csv.Row Dynamic.expected :: map Csv.Row rows /\
    Forall2 (fun row rec => exists n l, Dynamic.processRow PF UM Do o n row = (l, inr rec))
            rows records.
Proof.
  intros H. unfold Dynamic.processCSV in H. processCSV_records H Dynamic_loop_batch.
Qed.

Lemma TrimSpace_clean s : clean (Go.TrimSpace s).
Proof. split; [apply TrimSpace_no_leading | apply TrimSpace_no_trailing]. Qed.

(** ** The entries of a reply *)
Section ReplyFacts.
Variable PF : string -> option float.
Variable key : Api.RateEntry -> string.

Let step (t : string) (found : option float) (rate : Api.RateEntry) : option float :=
  if String.eqb (key rate) t
  then match PF (Api.JurisRate rate) with Some r => Some r | None => found end
  else found.

Lemma lastBy_snoc t rates rate :
  lastBy key PF t (rates ++ [rate]) = step t (lastBy key PF t rates) rate.
Proof. unfold lastBy. rewrite fold_left_app. reflexivity. Qed.

Lemma warnings_snoc rates rate :
  warnings key PF (rates ++ [rate])
  = warnings key PF rates
    ++ (if usable PF rate then [] else [LogRateParseFailure (Api.JurisRate rate) (key rate)]).
Proof.
  unfold warnings. rewrite List.filter_app, map_app. cbn [List.filter].
  destruct (usable PF rate); reflexivity.
Qed.

(** The entries that are not usable do not count. *)
Lemma lastBy_usable t rates :
  lastBy key PF t (List.filter (usable PF) rates) = lastBy key PF t rates.
Proof.
  unfold lastBy. generalize (@None float) as found.
  induction rates as [|rate rates IH]; intros found; [reflexivity|].
  cbn [List.filter fold_left]. unfold usable at 1.
  destruct (PF (Api.JurisRate rate)) as [r|] eqn:E; cbn [fold_left].
  - rewrite E. apply IH.
  - destruct (String.eqb (key rate) t); apply IH.
Qed.

(** A rate that is found is the rate some entry carries: none is made up. *)
Lemma lastBy_Some t rates r :
  lastBy key PF t rates = Some r ->
  exists rate, rate ∈ rates /\ key rate = t /\ PF (Api.JurisRate rate) = Some r.
Proof.
  induction rates as [|rate rates IH] using rev_ind; [discriminate|].
  rewrite lastBy_snoc. unfold step.
  destruct (String.eqb (key rate) t) eqn:Et.
  - destruct (PF (Api.JurisRate rate)) as [r'|] eqn:E.
    + intros [= <-]. exists rate. apply String.eqb_eq in Et.
      split; [apply elem_of_app; right; left | split; assumption].
    + intros H. destruct (IH H) as (x & Hx & Hk). exists x.
      split; [apply elem_of_app; left; exact Hx | exact Hk].
  - intros H. destruct (IH H) as (x & Hx & Hk). exists x.
    split; [apply elem_of_app; left; exact Hx | exact Hk].
Qed.

(** No rate is found exactly when no entry with the key is usable. *)
Lemma lastBy_None t rates :
  lastBy key PF t rates = None <->
  forall rate, rate ∈ rates -> key rate = t -> PF (Api.JurisRate rate) = None.
Proof.
  induction rates as [|rate rates IH] using rev_ind.
  - split; [intros _ rate H; inversion H | reflexivity].
  - rewrite lastBy_snoc. unfold step. split.
    + intros H x Hx Hk. apply elem_of_app in Hx as [Hx|Hx].
      * apply IH; [|exact Hx|exact Hk].
        destruct (String.eqb (key rate) t); [|exact H].
        destruct (PF (Api.JurisRate rate)); [discriminate | exact H].
      * apply list_elem_of_singleton in Hx as ->.
        apply String.eqb_eq in Hk. rewrite Hk in H.
        destruct (PF (Api.JurisRate rate)); [discriminate | reflexivity].
    + intros H.
      assert (Hr : lastBy key PF t rates = None).
      { apply IH. intros x Hx. apply H, elem_of_app. left. exact Hx. }
      rewrite Hr. destruct (String.eqb (key rate) t) eqn:Et; [|reflexivity].
      rewrite (H rate); [reflexivity | apply elem_of_app; right; left | apply String.eqb_eq, Et].
Qed.
End ReplyFacts.

Lemma threeRates_spec PF rates :
  threeRates PF rates
  = (default 0%float (lastRate PF "CITY" rates),
     default 0%float (lastRate PF "COUNTY" rates),
     default 0%float (lastRate PF "STATE" rates),
     warnings Api.JurisType PF rates).
Proof.
  induction rates as [|rate rates IH] using rev_ind; [reflexivity|].
  unfold threeRates, lastRate in *. rewrite fold_left_app. cbn [fold_left].
  rewrite IH. rewrite !lastBy_snoc, warnings_snoc. unfold rateStep, usable.
  destruct (PF (Api.JurisRate rate)) as [r|].
  - rewrite app_nil_r.
    destruct (String.eqb (Api.JurisType rate) "STATE") eqn:Es.
    + apply String.eqb_eq in Es. rewrite Es. reflexivity.
    + destruct (String.eqb (Api.JurisType rate) "COUNTY") eqn:Ek.
      * apply String.eqb_eq in Ek. rewrite Ek. reflexivity.
      * destruct (String.eqb (Api.JurisType rate) "CITY"); reflexivity.
  - destruct (String.eqb (Api.JurisType rate) "STATE"),
             (String.eqb (Api.JurisType rate) "COUNTY"),
             (String.eqb (Api.JurisType rate) "CITY"); reflexivity.
Qed.

Lemma rateMap_spec PF rates :
  snd (Dynamic.rateMap PF rates) = warnings Api.JurisName PF rates
  /\ forall j, fst (Dynamic.rateMap PF rates) !! j = lastNamed PF j rates.
Proof.
  induction rates as [|rate rates [IHl IHm]] using rev_ind; [split; reflexivity|].
  unfold Dynamic.rateMap, lastNamed in *. rewrite fold_left_app. cbn [fold_left].
  destruct (fold_left (Dynamic.rateStep PF) rates (∅, [])) as [m log].
  cbn [fst snd] in *. subst log.
  rewrite warnings_snoc. unfold Dynamic.rateStep, usable.
  destruct (PF (Api.JurisRate rate)) as [r|] eqn:E; cbn [fst snd].
  - rewrite app_nil_r. split; [reflexivity|]. intros j. rewrite lastBy_snoc, E.
    destruct (String.eqb (Api.JurisName rate) j) eqn:Ej.
    + apply String.eqb_eq in Ej. subst j. apply lookup_insert_eq.
    + rewrite lookup_insert_ne; [apply IHm | apply String.eqb_neq, Ej].
  - split; [reflexivity|]. intros j. rewrite lastBy_snoc, E, IHm.
    destruct (String.eqb (Api.JurisName rate) j); reflexivity.
Qed.

Lemma rateMap_empty PF rates :
  fst (Dynamic.rateMap PF rates) = ∅ <-> List.filter (usable PF) rates = [].
Proof.
  split.
  - intros H. destruct (List.filter (usable PF) rates) as [|rate l] eqn:E; [reflexivity|].
    exfalso.
    assert (Hin : List.In rate (List.filter (usable PF) rates)) by (rewrite E; left; reflexivity).
    apply List.filter_In in Hin as [Hin Hu]. unfold usable in Hu.
    destruct (PF (Api.JurisRate rate)) as [r|] eqn:Er; [|discriminate].
    pose proof (proj2 (rateMap_spec PF rates) (Api.JurisName rate)) as Hl.
    rewrite H, lookup_empty in Hl. symmetry in Hl.
    pose proof (proj1 (lastBy_None PF Api.JurisName _ _) Hl rate) as Hn.
    rewrite Hn in Er; [discriminate | apply list_elem_of_In, Hin | reflexivity].
  - intros H. apply map_eq. intros j.
    rewrite (proj2 (rateMap_spec PF rates)), lookup_empty.
    unfold lastNamed. rewrite <- lastBy_usable, H. reflexivity.
Qed.

(** The three-field lookup fails exactly on a state rate of zero. *)
Lemma ratesOfReply_result PF ToUpper street city zip taxData :
  let stateRate := default 0%float (lastRate PF "STATE" (Api.TaxRates taxData)) in
  (snd (ratesOfReply PF ToUpper street city zip taxData) = inl (NoStateRateIn taxData) <->
   (stateRate =? 0)%float = true)
  /\ ((stateRate =? 0)%float = false ->
      snd (ratesOfReply PF ToUpper street city zip taxData)
      = inr (default 0%float (lastRate PF "CITY" (Api.TaxRates taxData)),
             default 0%float (lastRate PF "COUNTY" (Api.TaxRates taxData)),
             stateRate)).
Proof.
  cbn zeta. unfold ratesOfReply. rewrite threeRates_spec.
  destruct (default 0%float (lastRate PF "STATE" (Api.TaxRates taxData)) =? 0)%float;
    cbn [snd]; split; try reflexivity; try discriminate;
    split; intros H; first [reflexivity | discriminate].
Qed.




(** * The statements of the specification *)



(** C5. Header validation in main.go is exact and order-sensitive: [equal]
    holds only of a header that is the expected schema element for element
    (same length, same strings, same order); any other header fails the whole
    run with the error that carries the received and the expected columns,
    and only the expected header lets [processCSV] go on to the rows. *)
Theorem header_validation PF TU UM yr Do (header : list string) (file : list Csv.Item) :
  (equal header Fixed.expected = true <->
     length header = length Fixed.expected /\
     forall i, (i < length Fixed.expected)%nat ->
               nth i header EmptyString = nth i Fixed.expected EmptyString)
  /\ (header <> Fixed.expected ->
      Fixed.processCSV PF TU UM yr Do (Csv.Row header :: file)
      = ([], inl (InvalidHeader header Fixed.expected)))
  /\ (header = Fixed.expected ->
      Fixed.processCSV PF TU UM yr Do (Csv.Row header :: file)
      = Fixed.loop PF TU UM yr Do (map (Csv.Read 6) file) [] [])
  /\ (forall log records,
      Fixed.processCSV PF TU UM yr Do (Csv.Row header :: file) = (log, inr records) ->
      header = Fixed.expected).
Proof.
  assert (Hne : header <> Fixed.expected ->
      Fixed.processCSV PF TU UM yr Do (Csv.Row header :: file)
      = ([], inl (InvalidHeader header Fixed.expected))).
  { intros H. unfold Fixed.processCSV. rewrite reads_cons.
    apply equal_false in H. rewrite H. reflexivity. }
  split; [|split; [exact Hne|split]].
  - rewrite equal_spec. split.
    + intros ->. split; reflexivity.
    + intros [Hl Hn]. apply (nth_ext _ _ EmptyString EmptyString Hl).
      intros i Hi. apply Hn. rewrite <- Hl. exact Hi.
  - intros ->. unfold Fixed.processCSV. rewrite reads_cons. reflexivity.
  - intros log records H. destruct (decide (header = Fixed.expected)) as [|Hd]; [assumption|].
    rewrite (Hne Hd) in H. discriminate.
Qed.

(** The header with two columns swapped is refused, whatever follows. *)
Lemma header_validation_witness :
  Fixed.processCSV Go.ParseFloat_decimal id (Run.unmarshalAs Run.austin) 2025 Run.service
    [Csv.Row ["charge"; "client"; "street address"; "city"; "State"; "zip code"]%string;
     Csv.Row ["John"; "100.00"; "123 Main St"; "Austin"; "TX"; "78701"]%string]
  = ([], inl (InvalidHeader
                ["charge"; "client"; "street address"; "city"; "State"; "zip code"]%string
                Fixed.expected)).
Proof.
  apply (header_validation Go.ParseFloat_decimal id (Run.unmarshalAs Run.austin) 2025
           Run.service). discriminate.
Defined.

(** C1. For every charge and every rate mapping the tax calculation gives,
    for every jurisdiction [j] of the rates, the amount [charge * rates[j]],
    and no entry for a jurisdiction the rates lack; the record a row leaves
    carries these amounts for the rates its lookup returned, in the version
    with a map (part_005) and in the version with three fields (main.go).
    The calculation is a function: it has no effect and a value on every
    charge and every rate mapping. *)
Theorem tax_amounts :
  (forall o (charge : float) (rates : gmap string float) (j : string),
     Dynamic.amounts o charge rates !! j = (fun rate => (charge * rate)%float) <$> rates !! j)
  /\ (forall PF UM Do o n row log rec,
      Dynamic.processRow PF UM Do o n row = (log, inr rec) ->
      exists taxRates q y,
        Dynamic.scrapeTaxRates PF UM Do n (Dynamic.Street rec) (Dynamic.City rec)
          (Dynamic.State rec) (Dynamic.Zip rec) q y = (log, inr taxRates)
        /\ forall j, Dynamic.Taxes rec !! j
                     = (fun rate => (Dynamic.Charge rec * rate)%float) <$> taxRates !! j)
  /\ (forall PF TU UM yr Do n row log rec,
      Fixed.processRow PF TU UM yr Do n row = (log, inr rec) ->
      exists cityRate countyRate stateRate,
        Fixed.scrapeTaxRates PF TU UM yr Do n (Fixed.Street rec) (Fixed.City rec)
          (Fixed.State rec) (Fixed.Zip rec) = (log, inr (cityRate, countyRate, stateRate))
        /\ Fixed.CityTax rec = (Fixed.Charge rec * cityRate)%float
        /\ Fixed.CountyTax rec = (Fixed.Charge rec * countyRate)%float
        /\ Fixed.StateTax rec = (Fixed.Charge rec * stateRate)%float).
Proof.
  assert (HA : forall o (charge : float) (rates : gmap string float) (j : string),
     Dynamic.amounts o charge rates !! j = (fun rate => (charge * rate)%float) <$> rates !! j).
  { intros. unfold Dynamic.amounts.
    rewrite (rangeMap_insert o _ (fun rate => (charge * rate)%float)).
    destruct (rates !! j); reflexivity. }
  split; [exact HA|split].
  - intros PF UM Do o n row log rec H.
    destruct (Dynamic_processRow_inr _ _ _ _ _ _ _ _ H)
      as (m & d & y & charge & taxRates & _ & _ & Hs & ->).
    exists taxRates, (quarter m), y. cbn. split; [exact Hs | intros j; apply HA].
  - intros PF TU UM yr Do n row log rec H.
    destruct (Fixed_processRow_inr _ _ _ _ _ _ _ _ _ H) as (charge & c & k & st & _ & Hs & ->).
    exists c, k, st. cbn. repeat split. exact Hs.
Qed.

(** A charge of 100 under the rates of [Run.austin]. *)
Lemma tax_amounts_witness :
  Dynamic.amounts elementsOrder 100
    (<["TEXAS"%string := 0.0625%float]> (<["AUSTIN"%string := 0.02%float]> ∅))
  !! "TEXAS"%string = Some 6.25%float
  /\ Dynamic.amounts elementsOrder 100
       (<["TEXAS"%string := 0.0625%float]> (<["AUSTIN"%string := 0.02%float]> ∅))
     !! "TRAVIS"%string = None.
Proof.
  rewrite !(proj1 tax_amounts). split; reflexivity.
Defined.



(** C7. In the dual report the totals map has an entry exactly for the
    jurisdictions that occur in some record, and the entry of [j] is the sum,
    over the records in their order, of the amounts of [j], a record without
    [j] adding nothing; the totals table has the header and one row per
    entry, the jurisdiction and its total with two decimals, and is the
    second entry of the archive [taxRatesHandler] answers with. *)
Theorem jurisdiction_totals (o : MapOrder) (records : list Dynamic.TaxRecord) :
  (forall j,
     (exists rec, rec ∈ records /\ is_Some (Dynamic.Taxes rec !! j)) ->
     Dual.jurisTotals o records !! j = Some (taxSum j records))
  /\ (forall j,
     ~ (exists rec, rec ∈ records /\ is_Some (Dynamic.Taxes rec !! j)) ->
     Dual.jurisTotals o records !! j = None)
  /\ (exists names,
       names ≡ₚ elements (jurisdictions records)
       /\ Dual.dueByJurisdiction o records
          = ["Jurisdiction"; "total"]%string
            :: map (fun j => [j; Go.Sprintf_2f (taxSum j records)]) names)
  /\ (forall PF UM Do file log,
      Dynamic.processCSV PF UM Do o file = (log, inr records) ->
      Dual.taxRatesHandler PF UM Do o "POST" (Http.Uploaded file)
      = (log, Http.ZipFile "tax_results.zip"
                [("due_by_charge.csv"%string, Dynamic.output o records);
                 ("due_by_jurisdiction.csv"%string, Dual.dueByJurisdiction o records)])).
Proof.
  assert (HL : forall j, Dual.jurisTotals o records !! j
                         = if decide (j ∈ jurisdictions records)
                           then Some (taxSum j records) else None).
  { intros j. rewrite jurisTotals_lookup.
    rewrite (total_fold j records None). cbn [default]. fold (taxSum j records).
    repeat case_decide; try reflexivity; exfalso.
    - destruct H as [[x Hx]|H]; [discriminate | contradiction].
    - apply H. right. assumption. }
  assert (Hdom : dom (Dual.jurisTotals o records) = jurisdictions records).
  { apply set_eq. intros j. rewrite elem_of_dom, HL.
    case_decide as Hj; split; intros H.
    - exact Hj.
    - eexists; reflexivity.
    - destruct H; discriminate.
    - contradiction. }
  split; [|split; [|split]];
    [| | |intros PF UM Do file log H; unfold Dual.taxRatesHandler; cbn [String.eqb];
          rewrite H; reflexivity].
  - intros j Hj. rewrite HL, decide_True; [reflexivity | apply elem_of_jurisdictions, Hj].
  - intros j Hj. rewrite HL, decide_False; [reflexivity|].
    intros H. apply Hj, elem_of_jurisdictions, H.
  - exists (rangeKeys o Dual.siteJurisTotals (jurisdictions records)). split.
    + apply rangeKeys_perm.
    + unfold Dual.dueByJurisdiction. cbn zeta. f_equal.
      rewrite (rangeMap_append o _ (fun juris total => [juris; Go.Sprintf_2f total])).
      cbn [app]. rewrite Hdom.
      assert (Hin : forall j, j ∈ rangeKeys o Dual.siteJurisTotals (jurisdictions records) ->
                              j ∈ jurisdictions records)
        by (intros j; apply rangeKeys_elem_of).
      induction (rangeKeys o Dual.siteJurisTotals (jurisdictions records)) as [|j ks IH];
        [reflexivity|].
      cbn [omap list_omap map]. rewrite HL.
      rewrite decide_True by (apply Hin; left). cbn. f_equal.
      apply IH. intros j' Hj'. apply Hin. right. exact Hj'.
Qed.

(** The totals of two records that share the state and differ in the city. *)
Lemma jurisdiction_totals_witness :
  let r1 := {| Dynamic.Client := "John"; Dynamic.Date := "02/22/2025"; Dynamic.Charge := 100;
               Dynamic.Street := "123 Main St"; Dynamic.City := "Austin";
               Dynamic.State := "TX"; Dynamic.Zip := "78701";
               Dynamic.Taxes := <["TEXAS"%string := 6.25%float]>
                                  (<["AUSTIN"%string := 2%float]> ∅) |} in
  let r2 := {| Dynamic.Client := "Mary"; Dynamic.Date := "05/02/2025"; Dynamic.Charge := 10;
               Dynamic.Street := "1 Elm St"; Dynamic.City := "Marfa";
               Dynamic.State := "TX"; Dynamic.Zip := "79843";
               Dynamic.Taxes := <["TEXAS"%string := 0.625%float]> ∅ |} in
  Dual.jurisTotals elementsOrder [r1; r2] !! "TEXAS"%string = Some 6.875%float
  /\ Dual.jurisTotals elementsOrder [r1; r2] !! "AUSTIN"%string = Some 2%float.
Proof.
  intros r1 r2.
  destruct (jurisdiction_totals elementsOrder [r1; r2]) as (H & _ & _ & _).
  split.
  - rewrite (H "TEXAS"%string); [reflexivity|].
    exists r2. split; [right; left | eexists; reflexivity].
  - rewrite (H "AUSTIN"%string); [reflexivity|].
    exists r1. split; [left | eexists; reflexivity].
Defined.



(** C8, as the code has it. The versions that trim (main.go, part_001,
    part_004, part_005) trim every field of a row before they validate or
    use it: a run that returns records read one row per record, the string
    fields of the record are the trimmed fields of its row and carry no white
    space at either end, and the charge and the date were read from the
    trimmed fields.  The versions part_000 and part_002 use the fields as
    the reader returns them. *)
Theorem trimmed_fields :
  (forall PF TU UM yr Do file log records,
     Fixed.processCSV PF TU UM yr Do file = (log, inr records) ->
     exists rows,
       file = Csv.Row Fixed.expected :: map Csv.Row rows /\
       Forall2 (fun row rec =>
         Fixed.Client rec = Go.TrimSpace (field 0 row)
         /\ PF (Go.TrimSpace (field 1 row)) = Some (Fixed.Charge rec)
         /\ Fixed.Street rec = Go.TrimSpace (field 2 row)
         /\ Fixed.City rec = Go.TrimSpace (field 3 row)
         /\ Fixed.State rec = Go.TrimSpace (field 4 row)
         /\ Fixed.Zip rec = Go.TrimSpace (field 5 row)
         /\ clean (Fixed.Client rec) /\ clean (Fixed.Street rec) /\ clean (Fixed.City rec)
         /\ clean (Fixed.State rec) /\ clean (Fixed.Zip rec)) rows records)
  /\ (forall PF TU UM Do file log records,
     FixedDate.processCSV PF TU UM Do file = (log, inr records) ->
     exists rows,
       file = Csv.Row FixedDate.expected :: map Csv.Row rows /\
       Forall2 (fun row rec =>
         FixedDate.Client rec = Go.TrimSpace (field 0 row)
         /\ FixedDate.Date rec = Go.TrimSpace (field 1 row)
         /\ (exists month day year,
               parseDate (Go.TrimSpace (field 0 row)) (Go.TrimSpace (field 1 row))
               = inr (month, day, year))
         /\ PF (Go.TrimSpace (field 2 row)) = Some (FixedDate.Charge rec)
         /\ FixedDate.Street rec = Go.TrimSpace (field 3 row)
         /\ FixedDate.City rec = Go.TrimSpace (field 4 row)
         /\ FixedDate.State rec = Go.TrimSpace (field 5 row)
         /\ FixedDate.Zip rec = Go.TrimSpace (field 6 row)
         /\ clean (FixedDate.Client rec) /\ clean (FixedDate.Date rec)
         /\ clean (FixedDate.Street rec) /\ clean (FixedDate.City rec)
         /\ clean (FixedDate.State rec) /\ clean (FixedDate.Zip rec)) rows records)
  /\ (forall PF UM Do o file log records,
     Dynamic.processCSV PF UM Do o file = (log, inr records) ->
     exists rows,
       file = Csv.Row Dynamic.expected :: map Csv.Row rows /\
       Forall2 (fun row rec =>
         Dynamic.Client rec = Go.TrimSpace (field 0 row)
         /\ Dynamic.Date rec = Go.TrimSpace (field 1 row)
         /\ (exists month day year,
               parseDate (Go.TrimSpace (field 0 row)) (Go.TrimSpace (field 1 row))
               = inr (month, day, year))
         /\ PF (Go.TrimSpace (field 2 row)) = Some (Dynamic.Charge rec)
         /\ Dynamic.Street rec = Go.TrimSpace (field 3 row)
         /\ Dynamic.City rec = Go.TrimSpace (field 4 row)
         /\ Dynamic.State rec = Go.TrimSpace (field 5 row)
         /\ Dynamic.Zip rec = Go.TrimSpace (field 6 row)
         /\ clean (Dynamic.Client rec) /\ clean (Dynamic.Date rec)
         /\ clean (Dynamic.Street rec) /\ clean (Dynamic.City rec)
         /\ clean (Dynamic.State rec) /\ clean (Dynamic.Zip rec)) rows records)
  /\ (forall PF Decode yr Do n row rec,
     JsonFloat.processRow PF Decode yr Do n row = inr rec ->
     JsonFloat.Client rec = field 0 row
     /\ PF (field 1 row) = Some (JsonFloat.Charge rec)
     /\ JsonFloat.Street rec = field 2 row
     /\ JsonFloat.City rec = field 3 row
     /\ JsonFloat.State rec = field 4 row
     /\ JsonFloat.Zip rec = field 5 row).
Proof.
  split; [|split; [|split]];
    [| | |intros PF Decode yr Do n row rec H; unfold JsonFloat.processRow in H;
          destruct (PF (field 1 row)) as [charge|]; [|discriminate];
          destruct (JsonFloat.scrapeTaxRates _ _ _ _ _ _ _ _) as [err|[[c k] st]];
          [discriminate|]; injection H as <-; repeat split].
  - intros PF TU UM yr Do file log records H.
    destruct (Fixed_processCSV_inr _ _ _ _ _ _ _ _ H) as (rows & -> & HF).
    exists rows. split; [reflexivity|].
    eapply Forall2_impl; [exact HF|]. cbv beta. intros row rec (n & l & Hrow).
    destruct (Fixed_processRow_inr _ _ _ _ _ _ _ _ _ Hrow) as (ch & c & k & st & Hc & _ & ->).
    cbn. rewrite !field_trimmed in *.
    repeat match goal with |- _ /\ _ => split end;
      first [reflexivity | exact Hc | apply TrimSpace_clean | eauto].
  - intros PF TU UM Do file log records H.
    destruct (FixedDate_processCSV_inr _ _ _ _ _ _ _ H) as (rows & -> & HF).
    exists rows. split; [reflexivity|].
    eapply Forall2_impl; [exact HF|]. cbv beta. intros row rec (n & l & Hrow).
    destruct (FixedDate_processRow_inr _ _ _ _ _ _ _ _ Hrow)
      as (m & d & y & ch & c & k & st & Hd & Hc & _ & ->).
    cbn. rewrite !field_trimmed in *.
    repeat match goal with |- _ /\ _ => split end;
      first [reflexivity | exact Hc | apply TrimSpace_clean | eauto].
  - intros PF UM Do o file log records H.
    destruct (Dynamic_processCSV_inr _ _ _ _ _ _ _ H) as (rows & -> & HF).
    exists rows. split; [reflexivity|].
    eapply Forall2_impl; [exact HF|]. cbv beta. intros row rec (n & l & Hrow).
    destruct (Dynamic_processRow_inr _ _ _ _ _ _ _ _ Hrow)
      as (m & d & y & ch & taxRates & Hd & Hc & _ & ->).
    cbn. rewrite !field_trimmed in *.
    repeat match goal with |- _ /\ _ => split end;
      first [reflexivity | exact Hc | apply TrimSpace_clean | eauto].
Qed.

(** A padded row through main.go: the record carries the trimmed client. *)
Lemma trimmed_fields_witness :
  exists rows,
    [Run.header6; Csv.Row Run.padded] = Csv.Row Fixed.expected :: map Csv.Row rows
    /\ Forall2 (fun row rec =>
         Fixed.Client rec = Go.TrimSpace (field 0 row) /\ clean (Fixed.Client rec))
       rows
       (match snd (Fixed.processCSV Go.ParseFloat_decimal id (Run.unmarshalAs Run.austin)
                     2025 Run.service [Run.header6; Csv.Row Run.padded]) with
        | inr records => records
        | inl _ => []
        end).
Proof.
  destruct (Fixed.processCSV Go.ParseFloat_decimal id (Run.unmarshalAs Run.austin)
              2025 Run.service [Run.header6; Csv.Row Run.padded]) as [log [e|records]] eqn:E;
    [vm_compute in E; discriminate|].
  destruct (proj1 trimmed_fields _ _ _ _ _ _ _ _ E) as (rows & Hrows & HF).
  exists rows. split; [exact Hrows|].
  eapply Forall2_impl; [exact HF|]. cbv beta. tauto.
Defined.

(** C8 as stated fails on part_000 and part_002: the padded client goes into
    the record as it is, and a padded charge is refused instead of trimmed. *)
Lemma trimmed_fields_counterexample :
  (exists rec,
     JsonFloat.processCSV Go.ParseFloat_decimal (Run.decodeAs Run.austinJ) 2025 Run.serviceJ
       [Run.header6; Csv.Row Run.padded] = inr [rec]
     /\ JsonFloat.Client rec = " John "%string
     /\ Go.hasLeadingSpace (JsonFloat.Client rec) = true
     /\ Go.hasTrailingSpace (JsonFloat.Client rec) = true)
  /\ JsonFloat.processCSV Go.ParseFloat_decimal (Run.decodeAs Run.austinJ) 2025 Run.serviceJ
       [Run.header6; Csv.Row Run.paddedCharge]
     = inl (InvalidCharge "John" " 100.00").
Proof.
  split; [eexists; split; [vm_compute; reflexivity | repeat split]|reflexivity].
Qed.

(** C9, as the code has it. The parser refuses, with the charge error that
    carries the client, exactly the charge fields that [strconv.ParseFloat]
    refuses once trimmed; the charge of a record is the number ParseFloat
    read, whatever its sign: a charge that ParseFloat reads goes to the
    lookup and, the lookup returning rates, is multiplied by them. *)
Theorem charge_validation :
  (forall PF TU UM yr Do n row,
     (PF (Go.TrimSpace (field 1 row)) = None <->
      fst (Fixed.processRow PF TU UM yr Do n row) = []
      /\ snd (Fixed.processRow PF TU UM yr Do n row)
         = inl (InvalidCharge (Go.TrimSpace (field 0 row)) (Go.TrimSpace (field 1 row))))
     /\ (forall log rec,
         Fixed.processRow PF TU UM yr Do n row = (log, inr rec) ->
         PF (Go.TrimSpace (field 1 row)) = Some (Fixed.Charge rec)))
  /\ (forall PF UM Do o n row month day year,
     parseDate (Go.TrimSpace (field 0 row)) (Go.TrimSpace (field 1 row))
     = inr (month, day, year) ->
     (PF (Go.TrimSpace (field 2 row)) = None <->
      snd (Dynamic.processRow PF UM Do o n row)
      = inl (InvalidCharge (Go.TrimSpace (field 0 row)) (Go.TrimSpace (field 2 row))))
     /\ (forall log rec,
         Dynamic.processRow PF UM Do o n row = (log, inr rec) ->
         PF (Go.TrimSpace (field 2 row)) = Some (Dynamic.Charge rec)))
  /\ (forall PF TU UM yr Do n row charge log cityRate countyRate stateRate,
     PF (Go.TrimSpace (field 1 row)) = Some charge ->
     Fixed.scrapeTaxRates PF TU UM yr Do n (Go.TrimSpace (field 2 row))
       (Go.TrimSpace (field 3 row)) (Go.TrimSpace (field 4 row)) (Go.TrimSpace (field 5 row))
     = (log, inr (cityRate, countyRate, stateRate)) ->
     exists rec,
       Fixed.processRow PF TU UM yr Do n row = (log, inr rec)
       /\ Fixed.Charge rec = charge
       /\ Fixed.CityTax rec = (charge * cityRate)%float
       /\ Fixed.CountyTax rec = (charge * countyRate)%float
       /\ Fixed.StateTax rec = (charge * stateRate)%float).
Proof.
  split; [|split];
    [| |intros PF TU UM yr Do n row charge log c k st Hc Hs; unfold Fixed.processRow;
        cbn zeta; rewrite !field_trimmed, Hc;
        cbn [Fixed.Street Fixed.City Fixed.State Fixed.Zip Fixed.Client Fixed.Charge];
        rewrite Hs; eexists; repeat split].
  - intros PF TU UM yr Do n row. split.
    + unfold Fixed.processRow. cbn zeta. rewrite !field_trimmed.
      destruct (PF (Go.TrimSpace (field 1 row))) as [charge|]; [|tauto].
      split; [discriminate|]. intros [_ H].
      destruct (Fixed.scrapeTaxRates _ _ _ _ _ _ _ _ _ _) as [l [err|[[c k] st]]];
        cbn in H; discriminate.
    + intros log rec H.
      destruct (Fixed_processRow_inr _ _ _ _ _ _ _ _ _ H) as (ch & c & k & st & Hc & _ & ->).
      rewrite field_trimmed in Hc. exact Hc.
  - intros PF UM Do o n row month day year Hd. split.
    + unfold Dynamic.processRow. cbn zeta. rewrite !field_trimmed, Hd.
      destruct (PF (Go.TrimSpace (field 2 row))) as [charge|]; [|tauto].
      split; [discriminate|]. intros H.
      destruct (Dynamic.scrapeTaxRates _ _ _ _ _ _ _ _ _ _) as [l [err|taxRates]];
        cbn in H; discriminate.
    + intros log rec H.
      destruct (Dynamic_processRow_inr _ _ _ _ _ _ _ _ H)
        as (m & d & y & ch & t & _ & Hc & _ & ->).
      rewrite field_trimmed in Hc. exact Hc.
Qed.

(** A charge that is no number is refused with the client's name. *)
Lemma charge_validation_witness :
  snd (Fixed.processRow Go.ParseFloat_decimal id (Run.unmarshalAs Run.austin) 2025
         Run.service 0 ["John"; "12,50"; "123 Main St"; "Austin"; "TX"; "78701"]%string)
  = inl (InvalidCharge "John" "12,50").
Proof.
  apply (proj1 (proj1 charge_validation Go.ParseFloat_decimal id
                  (Run.unmarshalAs Run.austin) 2025 Run.service 0%nat
                  ["John"; "12,50"; "123 Main St"; "Austin"; "TX"; "78701"]%string)).
  reflexivity.
Defined.

(** C9 as stated fails: a charge of -5.00 is read, looked up and taxed. *)
Lemma charge_validation_counterexample :
  exists rec,
    snd (Fixed.processCSV Go.ParseFloat_decimal id (Run.unmarshalAs Run.austin) 2025
           Run.service [Run.header6; Csv.Row Run.refund]) = inr [rec]
    /\ Fixed.Charge rec = (-5)%float
    /\ (Fixed.Charge rec <? 0)%float = true
    /\ Fixed.StateTax rec = (-0.3125)%float.
Proof.
  eexists. split; [vm_compute; reflexivity | repeat split].
Qed.

(** C3, as the code has it. In the versions that read the service's JSON
    reply with string rates (main.go, part_001, part_004, part_005) an entry
    whose rate does not parse is passed over with one warning in the log, the
    other entries of the reply being processed as if it were not there; a rate
    that is returned is the parsed rate of an entry of the reply, never a
    stand-in; and the lookup fails, with the error that carries the reply,
    exactly when no entry is usable (the map version) or when the state rate,
    the rate of the last usable STATE entry, is absent or zero (the
    three-field versions).  The scraping version part_003 instead puts
    0.02, 0.005 and 0.0625 in place of a rate that does not parse, and does
    not fail for want of rates. *)
Theorem rate_lookup (PF : string -> option float) :
  (forall rates,
     snd (Dynamic.rateMap PF rates) = warnings Api.JurisName PF rates
     /\ fst (Dynamic.rateMap PF rates)
        = fst (Dynamic.rateMap PF (List.filter (usable PF) rates))
     /\ (forall j r, fst (Dynamic.rateMap PF rates) !! j = Some r ->
           exists rate, rate ∈ rates /\ Api.JurisName rate = j
                        /\ PF (Api.JurisRate rate) = Some r))
  /\ (forall taxData,
       (snd (Dynamic.ratesOfReply PF taxData) = inl (NoRatesIn taxData) <->
        List.filter (usable PF) (Api.TaxRates taxData) = [])
       /\ (List.filter (usable PF) (Api.TaxRates taxData) <> [] ->
           snd (Dynamic.ratesOfReply PF taxData)
           = inr (fst (Dynamic.rateMap PF (Api.TaxRates taxData)))))
  /\ (forall rates,
       snd (threeRates PF rates) = warnings Api.JurisType PF rates
       /\ fst (threeRates PF rates) = fst (threeRates PF (List.filter (usable PF) rates))
       /\ fst (threeRates PF rates)
          = (default 0%float (lastRate PF "CITY" rates),
             default 0%float (lastRate PF "COUNTY" rates),
             default 0%float (lastRate PF "STATE" rates))
       /\ (forall t r, lastRate PF t rates = Some r ->
             exists rate, rate ∈ rates /\ Api.JurisType rate = t
                          /\ PF (Api.JurisRate rate) = Some r))
  /\ (forall ToUpper street city zip taxData,
       let stateRate := default 0%float (lastRate PF "STATE" (Api.TaxRates taxData)) in
       (snd (ratesOfReply PF ToUpper street city zip taxData) = inl (NoStateRateIn taxData) <->
        (stateRate =? 0)%float = true)
       /\ ((stateRate =? 0)%float = false ->
           snd (ratesOfReply PF ToUpper street city zip taxData)
           = inr (default 0%float (lastRate PF "CITY" (Api.TaxRates taxData)),
                  default 0%float (lastRate PF "COUNTY" (Api.TaxRates taxData)),
                  stateRate)))
  /\ (forall fetch address doc,
       fetch address = inr doc ->
       Scraper.scrapeTaxRates PF fetch address
       = inr (default 0.02%float (PF (Go.TrimSpace (Scraper.localStr doc))),
              default 0.005%float (PF (Go.TrimSpace (Scraper.countyStr doc))),
              default 0.0625%float (PF (Go.TrimSpace (Scraper.stateStr doc))))).
Proof.
  split; [|split; [|split; [|split]]];
    [| | | |intros fetch address doc H; unfold Scraper.scrapeTaxRates; rewrite H;
            destruct (PF (Go.TrimSpace (Scraper.localStr doc))),
                     (PF (Go.TrimSpace (Scraper.countyStr doc))),
                     (PF (Go.TrimSpace (Scraper.stateStr doc))); reflexivity].
  - intros rates. destruct (rateMap_spec PF rates) as [Hl Hm]. split; [exact Hl|split].
    + apply map_eq. intros j.
      rewrite Hm, (proj2 (rateMap_spec PF (List.filter (usable PF) rates))).
      unfold lastNamed. symmetry. apply lastBy_usable.
    + intros j r H. rewrite Hm in H. apply (lastBy_Some PF Api.JurisName j rates r H).
  - intros taxData. unfold Dynamic.ratesOfReply.
    pose proof (rateMap_empty PF (Api.TaxRates taxData)) as He.
    destruct (Dynamic.rateMap PF (Api.TaxRates taxData)) as [m log]. cbn [fst] in *.
    destruct (size m =? 0)%nat eqn:Es; cbn [snd].
    + apply Nat.eqb_eq, map_size_empty_iff in Es. split; [tauto|].
      intros H. exfalso. apply H, He, Es.
    + apply Nat.eqb_neq in Es. rewrite map_size_empty_iff in Es. split; [|reflexivity].
      split; [discriminate|]. intros H. exfalso. apply Es, He, H.
  - intros rates. rewrite (threeRates_spec PF rates).
    rewrite (threeRates_spec PF (List.filter (usable PF) rates)). cbn [fst snd].
    unfold lastRate. rewrite !lastBy_usable.
    repeat split. intros t r H. apply (lastBy_Some PF Api.JurisType t rates r H).
  - intros ToUpper street city zip taxData. apply ratesOfReply_result.
Qed.

(** The reply [Run.marfa]: the city's entry is passed over with a warning,
    the state and the county are kept. *)
Lemma rate_lookup_witness :
  snd (Dynamic.rateMap Go.ParseFloat_decimal (Api.TaxRates Run.marfa))
  = [LogRateParseFailure "n/a" "MARFA"]
  /\ snd (Dynamic.ratesOfReply Go.ParseFloat_decimal Run.marfa)
     = inr (<["TEXAS"%string := 0.0625%float]> (<["PRESIDIO"%string := 0.005%float]> ∅)).
Proof.
  destruct (rate_lookup Go.ParseFloat_decimal) as (H1 & H2 & _ & _ & _).
  split.
  - rewrite (proj1 (H1 _)). reflexivity.
  - rewrite (proj2 (H2 Run.marfa)); [|discriminate].
    vm_compute. reflexivity.
Defined.

(** C3 as stated fails on part_003: on a page without the three rates, none
    of which parses, the lookup does not fail and returns the stand-ins. *)
Lemma rate_lookup_counterexample :
  Go.ParseFloat_decimal (Go.TrimSpace (Scraper.localStr Run.blank)) = None
  /\ Go.ParseFloat_decimal (Go.TrimSpace (Scraper.countyStr Run.blank)) = None
  /\ Go.ParseFloat_decimal (Go.TrimSpace (Scraper.stateStr Run.blank)) = None
  /\ Scraper.scrapeTaxRates Go.ParseFloat_decimal (fun _ => inr Run.blank)
       "123 Main St Austin TX"
     = inr (0.02%float, 0.005%float, 0.0625%float).
Proof. repeat split. Qed.




(** * Further properties of the code *)

(** ** Trimming *)
Lemma ofBytes_bytes s : Go.ofBytes (Go.bytes s) = s.
Proof.
  unfold Go.ofBytes, Go.bytes. rewrite map_map.
  rewrite (map_ext _ (fun a => a)) by apply ascii_N_embedding.
  rewrite map_id. apply string_of_list_ascii_of_string.
Qed.

Lemma dropSpaces_none width n bs : width bs = 0%nat -> Go.dropSpaces width n bs = bs.
Proof. intros H. destruct n; simpl; [|rewrite H]; reflexivity. Qed.

Lemma TrimSpace_idempotent s : Go.TrimSpace (Go.TrimSpace s) = Go.TrimSpace s.
Proof.
  pose proof (TrimSpace_no_leading s) as Hl.
  pose proof (TrimSpace_no_trailing s) as Ht.
  unfold Go.hasLeadingSpace, Go.hasTrailingSpace in *.
  apply negb_false_iff, Nat.eqb_eq in Hl. apply negb_false_iff, Nat.eqb_eq in Ht.
  unfold Go.TrimSpace at 1. unfold Go.TrimLeft, Go.TrimRight.
  rewrite (dropSpaces_none _ _ _ Hl). rewrite (dropSpaces_none _ _ _ Ht).
  rewrite rev_involutive. apply ofBytes_bytes.
Qed.

Lemma map_TrimSpace_twice row :
  map Go.TrimSpace (map Go.TrimSpace row) = map Go.TrimSpace row.
Proof. rewrite map_map. apply map_ext. intros s. apply TrimSpace_idempotent. Qed.

(** X1. In the versions that trim, a row whose fields are trimmed already is
    processed as the row itself: white space around a field changes neither
    the record, nor the error, nor the log. *)
Theorem processRow_trimmed_twice :
  (forall PF TU UM yr Do n row,
     Fixed.processRow PF TU UM yr Do n (map Go.TrimSpace row)
     = Fixed.processRow PF TU UM yr Do n row)
  /\ (forall PF TU UM Do n row,
     FixedDate.processRow PF TU UM Do n (map Go.TrimSpace row)
     = FixedDate.processRow PF TU UM Do n row)
  /\ (forall PF UM Do o n row,
     Dynamic.processRow PF UM Do o n (map Go.TrimSpace row)
     = Dynamic.processRow PF UM Do o n row).
Proof.
  split; [|split]; intros;
    unfold Fixed.processRow, FixedDate.processRow, Dynamic.processRow;
    cbn zeta; rewrite map_TrimSpace_twice; reflexivity.
Qed.

(** ** The number of fields *)
Lemma reads_fields_length n file rows :
  map (Csv.Read n) file = map Csv.Fields rows -> Forall (fun row => length row = n) rows.
Proof.
  revert rows. induction file as [|it file IH]; intros [|row rows] H; try discriminate.
  - constructor.
  - cbn [map] in H. injection H as H1 H2. constructor; [|apply IH, H2].
    destruct it as [fields|e]; cbn in H1; [|discriminate].
    destruct (length fields =? n)%nat eqn:E; [|discriminate].
    apply Nat.eqb_eq in E. congruence.
Qed.

Lemma reads_rows n rows :
  Forall (fun row => length row = n) rows ->
  map (Csv.Read n) (map Csv.Row rows) = map Csv.Fields rows.
Proof.
  induction 1 as [|row rows Hrow _ IH]; [reflexivity|].
  cbn [map Csv.Read]. rewrite IH. apply Nat.eqb_eq in Hrow. rewrite Hrow. reflexivity.
Qed.

(** X2. A run of main.go that returns records read the expected header and
    then rows of exactly six fields, one per record: the loop never indexes a
    row out of range. *)
Theorem processed_rows_fit_header PF TU UM yr Do file log records :
  Fixed.processCSV PF TU UM yr Do file = (log, inr records) ->
  exists rows,
    file = Csv.Row Fixed.expected :: map Csv.Row rows
    /\ Forall (fun row => length row = 6%nat) rows
    /\ length records = length rows.
Proof.
  intros H. unfold Fixed.processCSV in H.
  destruct file as [|[header|e] file']; [discriminate | | cbn in H; discriminate].
  rewrite reads_cons in H.
  destruct (equal header Fixed.expected) eqn:Eh; cbn [negb] in H; [|discriminate].
  apply equal_spec in Eh. subst header. rewrite Fixed_loop_batch in H.
  destruct (batch_inr _ _ _ _ _ _ H) as (rows & new & Hr & -> & HF).
  pose proof (reads_fields_length _ _ _ Hr) as Hlen.
  apply reads_fields in Hr. subst file'. exists rows.
  split; [reflexivity | split; [exact Hlen|]].
  symmetry. apply (Forall2_length _ _ _ HF).
Qed.

Lemma processed_rows_fit_header_witness :
  exists rows,
    [Run.header6; Csv.Row Run.john6; Csv.Row Run.jane6]
    = Csv.Row Fixed.expected :: map Csv.Row rows
    /\ Forall (fun row => length row = 6%nat) rows
    /\ 2%nat = length rows.
Proof.
  destruct (Fixed.processCSV Go.ParseFloat_decimal id (Run.unmarshalAs Run.austin)
              2025 Run.service [Run.header6; Csv.Row Run.john6; Csv.Row Run.jane6])
    as [log [e|records]] eqn:E; [vm_compute in E; discriminate|].
  assert (Hn : length records = 2%nat)
    by (vm_compute in E; injection E as _ <-; reflexivity).
  destruct (processed_rows_fit_header _ _ _ _ _ _ _ _ E) as (rows & H1 & H2 & H3).
  exists rows. split; [exact H1 | split; [exact H2 | congruence]].
Defined.

(** X3. In main.go a row with another number of fields than six, the rows
    before it having gone through, ends the run with the reader's error about
    the number of fields, before any of its fields is read. *)
Theorem short_row_ends_run PF TU UM yr Do before row after log records :
  Forall (fun r => length r = 6%nat) before ->
  Fixed.loop PF TU UM yr Do (map Csv.Fields before) [] [] = (log, inr records) ->
  length row <> 6%nat ->
  Fixed.processCSV PF TU UM yr Do
    (Csv.Row Fixed.expected :: map Csv.Row before ++ Csv.Row row :: after)
  = (log, inl (ReadError Csv.ErrFieldCount)).
Proof.
  intros Hb Hloop Hrow. unfold Fixed.processCSV. rewrite reads_cons.
  rewrite (proj2 (equal_spec _ _) eq_refl). cbn [negb].
  change (length Fixed.expected) with 6%nat.
  rewrite map_app, (reads_rows _ _ Hb). cbn [map Csv.Read].
  apply Nat.eqb_neq in Hrow. rewrite Hrow.
  rewrite Fixed_loop_batch in *. rewrite (batch_app _ _ _ _ _ _ _ Hloop). reflexivity.
Qed.

Lemma short_row_ends_run_witness :
  snd (Fixed.processCSV Go.ParseFloat_decimal id (Run.unmarshalAs Run.austin) 2025
         Run.service [Run.header6; Csv.Row Run.john6; Csv.Row Run.short; Csv.Row Run.john6])
  = inl (ReadError Csv.ErrFieldCount).
Proof.
  refine (f_equal snd
            (short_row_ends_run Go.ParseFloat_decimal id (Run.unmarshalAs Run.austin) 2025
               Run.service [Run.john6] Run.short [Csv.Row Run.john6] _ _ _ _ _));
    [repeat constructor | vm_compute; reflexivity | discriminate].
Defined.

(** ** The outcome of a lookup *)
Lemma Dynamic_ratesOfReply_result PF taxData :
  (snd (Dynamic.ratesOfReply PF taxData) = inl (NoRatesIn taxData) <->
   List.filter (usable PF) (Api.TaxRates taxData) = [])
  /\ (List.filter (usable PF) (Api.TaxRates taxData) <> [] ->
      snd (Dynamic.ratesOfReply PF taxData)
      = inr (fst (Dynamic.rateMap PF (Api.TaxRates taxData)))).
Proof.
  unfold Dynamic.ratesOfReply.
  pose proof (rateMap_empty PF (Api.TaxRates taxData)) as He.
  destruct (Dynamic.rateMap PF (Api.TaxRates taxData)) as [m log]. cbn [fst] in *.
  destruct (size m =? 0)%nat eqn:Es; cbn [snd].
  - apply Nat.eqb_eq, map_size_empty_iff in Es. split; [tauto|].
    intros H. exfalso. apply H, He, Es.
  - apply Nat.eqb_neq in Es. rewrite map_size_empty_iff in Es. split; [|reflexivity].
    split; [discriminate|]. intros H. exfalso. apply Es, He, H.
Qed.

(** X4. The lookup of the three-field versions returns rates exactly when
    the service answered with status 200 and a body that decodes to a reply
    whose state rate is not zero; a reply with another status fails the
    lookup with the error that carries the status and the body, whatever the
    body holds. *)
Theorem three_field_lookup_succeeds_exactly PF ToUpper Unmarshal exchange q :
  ((exists rates, snd (scrapeThree PF ToUpper Unmarshal exchange q) = inr rates) <->
   exists body taxData,
     exchange = Api.Replied Api.StatusOK body
     /\ Unmarshal body = Some taxData
     /\ (default 0%float (lastRate PF "STATE" (Api.TaxRates taxData)) =? 0)%float = false)
  /\ (forall status body,
      exchange = Api.Replied status body -> status <> Api.StatusOK ->
      scrapeThree PF ToUpper Unmarshal exchange q
      = ([LogRequest q; LogStatus status; LogBody body],
         inl (UnexpectedStatus status body))).
Proof.
  split.
  - unfold scrapeThree. destruct exchange as [e|status e|status body]; cbn [snd].
    + split; [intros [r H]; discriminate | intros (b & t & H & _); discriminate].
    + split; [intros [r H]; discriminate | intros (b & t & H & _); discriminate].
    + destruct (status =? Api.StatusOK) eqn:Es; cbn [negb snd].
      * apply Z.eqb_eq in Es. subst status.
        destruct (Unmarshal body) as [taxData|] eqn:EU; cbn [snd].
        -- pose proof (ratesOfReply_result PF ToUpper (Api.q_street q) (Api.q_city q)
                         (Api.q_zipcode q) taxData) as [Hfail Hok].
           cbn zeta in Hfail, Hok.
           destruct (ratesOfReply PF ToUpper _ _ _ taxData) as [log res]. cbn [snd] in *.
           split.
           ++ intros [r ->]. exists body, taxData.
              split; [reflexivity | split; [exact EU|]].
              destruct (_ =? 0)%float eqn:E0; [|reflexivity].
              discriminate (proj2 Hfail eq_refl).
           ++ intros (b & t & Hb & Ht & Hz). injection Hb as <-.
              rewrite EU in Ht. injection Ht as <-. rewrite (Hok Hz). eauto.
        -- split; [intros [r H]; discriminate|].
           intros (b & t & Hb & Ht & _). injection Hb as <-. congruence.
      * apply Z.eqb_neq in Es. split; [intros [r H]; discriminate|].
        intros (b & t & Hb & _). injection Hb as ? ?. congruence.
  - intros status body -> Hs. unfold scrapeThree.
    apply Z.eqb_neq in Hs. rewrite Hs. reflexivity.
Qed.

(** X5. The lookup of the map versions (part_004, part_005) returns rates
    exactly when the service answered with status 200 and a body that decodes
    to a reply with at least one usable entry; the rates are then a map that
    is not empty. *)
Theorem map_lookup_succeeds_exactly PF Unmarshal Do n street city state zip quarter year :
  let q := {| Api.q_state := state; Api.q_city := city; Api.q_zipcode := zip;
              Api.q_street := street; Api.q_quarter := quarter; Api.q_year := year |} in
  ((exists taxRates,
      snd (Dynamic.scrapeTaxRates PF Unmarshal Do n street city state zip quarter year)
      = inr taxRates) <->
   exists body taxData,
     Do n q = Api.Replied Api.StatusOK body
     /\ Unmarshal body = Some taxData
     /\ List.filter (usable PF) (Api.TaxRates taxData) <> [])
  /\ (forall taxRates,
      snd (Dynamic.scrapeTaxRates PF Unmarshal Do n street city state zip quarter year)
      = inr taxRates -> taxRates <> ∅).
Proof.
  cbn zeta. unfold Dynamic.scrapeTaxRates.
  destruct (Do n _) as [e|status e|status body]; cbn [snd].
  - split; [|intros ? H; discriminate].
    split; [intros [r H]; discriminate | intros (b & t & H & _); discriminate].
  - split; [|intros ? H; discriminate].
    split; [intros [r H]; discriminate | intros (b & t & H & _); discriminate].
  - destruct (status =? Api.StatusOK) eqn:Es; cbn [negb snd].
    + apply Z.eqb_eq in Es. subst status.
      destruct (Unmarshal body) as [taxData|] eqn:EU; cbn [snd].
      * pose proof (Dynamic_ratesOfReply_result PF taxData) as [Hfail Hok].
        pose proof (rateMap_empty PF (Api.TaxRates taxData)) as He.
        destruct (Dynamic.ratesOfReply PF taxData) as [log res]. cbn [snd] in *.
        destruct (List.filter (usable PF) (Api.TaxRates taxData)) as [|rate l] eqn:Ef.
        -- rewrite (proj2 Hfail eq_refl). split; [|intros ? H; discriminate].
           split; [intros [r H]; discriminate|].
           intros (b & t & Hb & Ht & Hn). injection Hb as <-.
           rewrite EU in Ht. injection Ht as <-. rewrite Ef in Hn. contradiction.
        -- rewrite Hok by discriminate. split.
           ++ split; [|eauto]. intros _. exists body, taxData.
              rewrite Ef. repeat split; [exact EU | discriminate].
           ++ intros taxRates [= <-] H. apply He in H. discriminate.
      * split; [|intros ? H; discriminate].
        split; [intros [r H]; discriminate|].
        intros (b & t & Hb & Ht & _). injection Hb as <-. congruence.
    + apply Z.eqb_neq in Es. split; [|intros ? H; discriminate].
      split; [intros [r H]; discriminate|].
      intros (b & t & Hb & _). injection Hb as ? ?. congruence.
Qed.

(** ** The first row that fails *)

(** X6. The run of main.go is sequential and all or nothing: when the rows
    before a row have gone through and the row fails, whatever the error (its
    charge, or its lookup), the run returns that error, with the log up to
    it, and no record; the rows after it play no part. *)
Theorem first_failure_ends_run PF TU UM yr Do file before row after log records l err :
  Csv.reads file = Csv.Fields Fixed.expected :: before ++ Csv.Fields row :: after ->
  Fixed.loop PF TU UM yr Do before [] [] = (log, inr records) ->
  Fixed.processRow PF TU UM yr Do (length records) row = (l, inl err) ->
  Fixed.processCSV PF TU UM yr Do file = (log ++ l, inl err).
Proof.
  intros Hreads Hloop Hrow. unfold Fixed.processCSV. rewrite Hreads.
  rewrite (proj2 (equal_spec _ _) eq_refl). cbn [negb].
  rewrite Fixed_loop_batch in *. rewrite (batch_app _ _ _ _ _ _ _ Hloop).
  apply batch_fail, Hrow.
Qed.

(** The service answers the second request with a status of 500: the run
    ends with the error that names Jane and carries the status. *)
Lemma first_failure_ends_run_witness :
  snd (Fixed.processCSV Go.ParseFloat_decimal id (Run.unmarshalAs Run.austin) 2025
         Run.failing [Run.header6; Csv.Row Run.john6; Csv.Row Run.jane6; Csv.Row Run.john6])
  = inl (ScrapeFailed "Jane" (UnexpectedStatus 500 "Internal Server Error")).
Proof.
  refine (f_equal snd
            (first_failure_ends_run Go.ParseFloat_decimal id (Run.unmarshalAs Run.austin)
               2025 Run.failing _ [Csv.Fields Run.john6] Run.jane6 [Csv.Fields Run.john6]
               _ _ _ _ _ _ _));
    [reflexivity | vm_compute; reflexivity | vm_compute; reflexivity].
Defined.

(** ** Entries of other types, and the address of the reply *)
Lemma lastBy_filter PF key (P : Api.RateEntry -> bool) t rates :
  (forall rate, key rate = t -> P rate = true) ->
  lastBy key PF t (List.filter P rates) = lastBy key PF t rates.
Proof.
  intros HP. unfold lastBy. generalize (@None float) as found.
  induction rates as [|rate rates IH]; intros found; [reflexivity|].
  cbn [List.filter fold_left]. destruct (P rate) eqn:E; cbn [fold_left]; [apply IH|].
  destruct (String.eqb (key rate) t) eqn:Et; [|apply IH].
  apply String.eqb_eq in Et. rewrite (HP rate Et) in E. discriminate.
Qed.

(** X7. The three-field versions read the entries of type STATE, COUNTY and
    CITY only: the entries of any other type, a transit authority or a
    special district, change none of the three rates, so that their tax is in
    no column of the report. *)
Theorem other_types_ignored :
  (forall PF rates,
     fst (threeRates PF rates)
     = fst (threeRates PF (List.filter (fun rate => canonicalType (Api.JurisType rate)) rates)))
  /\ (forall rates init,
     fold_left JsonFloat.rateStep rates init
     = fold_left JsonFloat.rateStep
         (List.filter (fun rate => canonicalType (JsonFloat.Type_ rate)) rates) init).
Proof.
  split.
  - intros PF rates. rewrite !threeRates_spec. cbn [fst]. unfold lastRate.
    rewrite !lastBy_filter; [reflexivity | | |]; intros rate ->; reflexivity.
  - induction rates as [|rate rates IH]; intros init; [reflexivity|].
    cbn [List.filter fold_left]. unfold canonicalType at 1.
    destruct (String.eqb (JsonFloat.Type_ rate) "STATE") eqn:Es;
      [cbn [orb fold_left]; apply IH|].
    destruct (String.eqb (JsonFloat.Type_ rate) "COUNTY") eqn:Ek;
      [cbn [orb fold_left]; apply IH|].
    destruct (String.eqb (JsonFloat.Type_ rate) "CITY") eqn:Ec;
      [cbn [orb fold_left]; apply IH|].
    cbn [orb]. rewrite <- IH. f_equal.
    unfold JsonFloat.rateStep. destruct init as [[c k] st]. rewrite Es, Ek, Ec. reflexivity.
Qed.

(** X8. The comparison of the address of the reply with the address asked is
    for the log only: the result of the lookup is the same whatever the two
    addresses, and the log has the line about a mismatch exactly when the
    streets or the cities differ once in upper case, or the zip codes
    differ. *)
Theorem address_check_only_logs PF ToUpper street city zip taxData :
  (forall ToUpper' street' city' zip',
     snd (ratesOfReply PF ToUpper street city zip taxData)
     = snd (ratesOfReply PF ToUpper' street' city' zip' taxData))
  /\ ((exists a b c d e f,
         LogAddressMismatch a b c d e f ∈ fst (ratesOfReply PF ToUpper street city zip taxData))
      <-> ToUpper street <> ToUpper (Api.Street taxData)
          \/ ToUpper city <> ToUpper (Api.City taxData)
          \/ zip <> Api.ZipCode taxData).
Proof.
  split.
  - intros TU' street' city' zip'. unfold ratesOfReply. rewrite threeRates_spec.
    destruct (_ =? 0)%float; reflexivity.
  - unfold ratesOfReply. rewrite threeRates_spec.
    assert (Hw : forall a b c d e f,
              LogAddressMismatch a b c d e f ∉ warnings Api.JurisType PF (Api.TaxRates taxData)).
    { intros a b c d e f H. unfold warnings in H. rewrite map_fmap in H.
      apply list_elem_of_fmap in H as (x & Hx & _). discriminate. }
    assert (Hrest : forall a b c d e f (tail : list LogLine),
              (tail = [] \/ exists n, tail = [LogFewRates n]) ->
              LogAddressMismatch a b c d e f
              ∉ warnings Api.JurisType PF (Api.TaxRates taxData)
                ++ [LogParsedRates
                      (default 0%float (lastRate PF "CITY" (Api.TaxRates taxData)))
                      (default 0%float (lastRate PF "COUNTY" (Api.TaxRates taxData)))
                      (default 0%float (lastRate PF "STATE" (Api.TaxRates taxData)))]
                ++ tail).
    { intros a b c d e f tail Ht H. rewrite !elem_of_app in H.
      destruct H as [H|[H|H]].
      - exact (Hw _ _ _ _ _ _ H).
      - apply list_elem_of_singleton in H. discriminate.
      - destruct Ht as [->|[n ->]]; [inversion H|].
        apply list_elem_of_singleton in H. discriminate. }
    set (cond := negb (String.eqb (ToUpper street) (ToUpper (Api.Street taxData)))
                 || negb (String.eqb (ToUpper city) (ToUpper (Api.City taxData)))
                 || negb (String.eqb zip (Api.ZipCode taxData))).
    assert (Hcond : cond = true <->
              ToUpper street <> ToUpper (Api.Street taxData)
              \/ ToUpper city <> ToUpper (Api.City taxData)
              \/ zip <> Api.ZipCode taxData).
    { subst cond. rewrite !orb_true_iff, !negb_true_iff, !String.eqb_neq. tauto. }
    rewrite <- Hcond. clear Hcond.
    destruct cond.
    + split; [reflexivity|]. intros _.
      do 6 eexists.
      destruct (_ =? 0)%float; cbn [fst]; apply elem_of_app; left; left.
    + split; [|discriminate]. intros (a & b & c & d & e & f & H). exfalso.
      destruct (_ =? 0)%float; cbn [fst app] in H.
      * apply (Hrest a b c d e f []); [left; reflexivity|]. rewrite app_nil_r. exact H.
      * destruct (length (Api.TaxRates taxData) <? 3)%nat.
        -- apply (Hrest a b c d e f [LogFewRates (length (Api.TaxRates taxData))]);
             [right; eauto | exact H].
        -- apply (Hrest a b c d e f []); [left; reflexivity | exact H].
Qed.

(** ** What every record carries *)
Lemma Dynamic_scrape_not_empty PF UM Do n street city state zip quarter year log taxRates :
  Dynamic.scrapeTaxRates PF UM Do n street city state zip quarter year = (log, inr taxRates) ->
  taxRates <> ∅.
Proof.
  unfold Dynamic.scrapeTaxRates. destruct (Do n _) as [e|status e|status body];
    try discriminate.
  destruct (negb (status =? Api.StatusOK)); [discriminate|].
  destruct (UM body) as [taxData|]; [|discriminate].
  unfold Dynamic.ratesOfReply.
  destruct (Dynamic.rateMap PF (Api.TaxRates taxData)) as [m l].
  destruct (size m =? 0)%nat eqn:Es; [discriminate|].
  intros [= _ <-]. apply Nat.eqb_neq in Es. rewrite map_size_empty_iff in Es. exact Es.
Qed.

Lemma amounts_not_empty o charge (taxRates : gmap string float) :
  taxRates <> ∅ -> Dynamic.amounts o charge taxRates <> ∅.
Proof.
  intros H. apply map_choose in H as (j & r & Hj). intros He.
  assert (Hl : Dynamic.amounts o charge taxRates !! j = Some (charge * r)%float).
  { unfold Dynamic.amounts.
    rewrite (rangeMap_insert o _ (fun rate => (charge * rate)%float)), Hj. reflexivity. }
  rewrite He, lookup_empty in Hl. discriminate.
Qed.

(** X9. Every record that a run of part_005 returns has at least one tax: its
    tax map is not empty, so that the report of a run with a record has at
    least one tax column. *)
Theorem records_have_taxes PF UM Do o file log records :
  Dynamic.processCSV PF UM Do o file = (log, inr records) ->
  Forall (fun rec => Dynamic.Taxes rec <> ∅) records
  /\ (records <> [] -> Dynamic.getAllJurisNames o records <> []).
Proof.
  intros H. destruct (Dynamic_processCSV_inr _ _ _ _ _ _ _ H) as (rows & _ & HF).
  assert (Hall : Forall (fun rec => Dynamic.Taxes rec <> ∅) records).
  { clear H. induction HF as [|row rec rows records (n & l & Hrow) _ IH]; constructor;
      [|exact IH].
    destruct (Dynamic_processRow_inr _ _ _ _ _ _ _ _ Hrow)
      as (m & d & y & ch & taxRates & _ & _ & Hs & ->).
    cbn [Dynamic.Taxes]. apply amounts_not_empty.
    apply (Dynamic_scrape_not_empty _ _ _ _ _ _ _ _ _ _ _ _ Hs). }
  split; [exact Hall|]. intros Hne.
  destruct records as [|rec records]; [contradiction|].
  apply Forall_cons in Hall as [Hrec _].
  apply map_choose in Hrec as (j & x & Hj).
  assert (Hin : j ∈ Dynamic.getAllJurisNames o (rec :: records)).
  { rewrite getAllJurisNames_eq, rangeKeys_elem_of. apply elem_of_jurisdictions.
    exists rec. split; [left | eauto]. }
  intros He. rewrite He in Hin. inversion Hin.
Qed.

Lemma records_have_taxes_witness :
  match snd (Dynamic.processCSV Go.ParseFloat_decimal (Run.unmarshalAs Run.austin)
               Run.service elementsOrder [Run.header7; Csv.Row Run.john]) with
  | inr records =>
    Forall (fun rec => Dynamic.Taxes rec <> ∅) records
    /\ (records <> [] -> Dynamic.getAllJurisNames elementsOrder records <> [])
  | inl _ => False
  end.
Proof.
  destruct (Dynamic.processCSV Go.ParseFloat_decimal (Run.unmarshalAs Run.austin)
              Run.service elementsOrder [Run.header7; Csv.Row Run.john])
    as [log [e|records]] eqn:E; [vm_compute in E; discriminate|].
  cbn [snd]. exact (records_have_taxes _ _ _ _ _ _ _ E).
Defined.

Lemma scrapeThree_state_not_zero PF TU UM exchange q log cityRate countyRate stateRate :
  scrapeThree PF TU UM exchange q = (log, inr (cityRate, countyRate, stateRate)) ->
  (stateRate =? 0)%float = false.
Proof.
  unfold scrapeThree. destruct exchange as [e|status e|status body]; try discriminate.
  destruct (negb (status =? Api.StatusOK)); [discriminate|].
  destruct (UM body) as [taxData|]; [|discriminate].
  unfold ratesOfReply.
  destruct (threeRates PF (Api.TaxRates taxData)) as [[[c k] st] l].
  destruct (st =? 0)%float eqn:E0; [discriminate|].
  intros [= _ _ _ <-]. exact E0.
Qed.

(** X10. Every record that a run of main.go returns was taxed at a state rate
    that is not zero: its three taxes are its charge times the three rates of
    a lookup whose state rate differs from 0. *)
Theorem records_have_state_rate PF TU UM yr Do file log records :
  Fixed.processCSV PF TU UM yr Do file = (log, inr records) ->
  Forall (fun rec =>
            exists cityRate countyRate stateRate,
              (stateRate =? 0)%float = false
              /\ Fixed.CityTax rec = (Fixed.Charge rec * cityRate)%float
              /\ Fixed.CountyTax rec = (Fixed.Charge rec * countyRate)%float
              /\ Fixed.StateTax rec = (Fixed.Charge rec * stateRate)%float) records.
Proof.
  intros H. destruct (Fixed_processCSV_inr _ _ _ _ _ _ _ _ H) as (rows & _ & HF).
  clear H. induction HF as [|row rec rows records (n & l & Hrow) _ IH]; constructor;
    [|exact IH].
  destruct (Fixed_processRow_inr _ _ _ _ _ _ _ _ _ Hrow)
    as (ch & c & k & st & _ & Hs & ->).
  exists c, k, st. cbn. repeat split.
  unfold Fixed.scrapeTaxRates in Hs. apply (scrapeThree_state_not_zero _ _ _ _ _ _ _ _ _ Hs).
Qed.

Lemma records_have_state_rate_witness :
  match snd (Fixed.processCSV Go.ParseFloat_decimal id (Run.unmarshalAs Run.austin) 2025
               Run.service [Run.header6; Csv.Row Run.john6]) with
  | inr records =>
    Forall (fun rec =>
              exists cityRate countyRate stateRate,
                (stateRate =? 0)%float = false
                /\ Fixed.CityTax rec = (Fixed.Charge rec * cityRate)%float
                /\ Fixed.CountyTax rec = (Fixed.Charge rec * countyRate)%float
                /\ Fixed.StateTax rec = (Fixed.Charge rec * stateRate)%float) records
  | inl _ => False
  end.
Proof.
  destruct (Fixed.processCSV Go.ParseFloat_decimal id (Run.unmarshalAs Run.austin) 2025
              Run.service [Run.header6; Csv.Row Run.john6])
    as [log [e|records]] eqn:E; [vm_compute in E; discriminate|].
  cbn [snd]. exact (records_have_state_rate _ _ _ _ _ _ _ _ E).
Defined.

(** X11. A row of part_005 that goes through carries a date that reads as a
    month from 1 to 12, a day from 1 to 31 and a year from 2000 on, and its
    rates were asked for the quarter of that month, one of the four, and for
    that year. *)
Theorem accepted_row_period PF UM Do o n row log rec :
  Dynamic.processRow PF UM Do o n row = (log, inr rec) ->
  exists month day year taxRates,
    parseDate (Dynamic.Client rec) (Dynamic.Date rec) = inr (month, day, year)
    /\ 1 <= month <= 12 /\ 1 <= day <= 31 /\ 2000 <= year
    /\ 1 <= quarter month <= 4
    /\ Dynamic.scrapeTaxRates PF UM Do n (Dynamic.Street rec) (Dynamic.City rec)
         (Dynamic.State rec) (Dynamic.Zip rec) (quarter month) year
       = (log, inr taxRates).
Proof.
  intros H.
  destruct (Dynamic_processRow_inr _ _ _ _ _ _ _ _ H)
    as (m & d & y & ch & taxRates & Hd & _ & Hs & ->).
  cbn [Dynamic.Client Dynamic.Date Dynamic.Street Dynamic.City Dynamic.State Dynamic.Zip].
  exists m, d, y, taxRates.
  destruct (parseDate_inr _ _ _ _ _ Hd) as (Hm & Hday & Hy & Hq).
  repeat (split; [assumption || lia|]). exact Hs.
Qed.

Lemma accepted_row_period_witness :
  exists rec month day year,
    snd (Dynamic.processRow Go.ParseFloat_decimal (Run.unmarshalAs Run.austin) Run.service
           elementsOrder 0 Run.john) = inr rec
    /\ parseDate (Dynamic.Client rec) (Dynamic.Date rec) = inr (month, day, year)
    /\ 1 <= quarter month <= 4.
Proof.
  destruct (Dynamic.processRow Go.ParseFloat_decimal (Run.unmarshalAs Run.austin)
              Run.service elementsOrder 0 Run.john) as [log [e|rec]] eqn:E;
    [vm_compute in E; discriminate|].
  destruct (accepted_row_period _ _ _ _ _ _ _ _ E)
    as (m & d & y & t & Hd & _ & _ & _ & Hq & _).
  exists rec, m, d, y. cbn [snd]. auto.
Defined.

(** ** The two tables of the archive *)
Lemma jurisTotals_dom o records : dom (Dual.jurisTotals o records) = jurisdictions records.
Proof.
  apply set_eq. intros j.
  rewrite elem_of_dom, jurisTotals_lookup, (total_fold j records None).
  case_decide as Hj.
  - split; intros _; [|eexists; reflexivity].
    destruct Hj as [[x Hx]|Hj]; [discriminate | exact Hj].
  - split; intros H; [destruct H; discriminate|].
    exfalso. apply Hj. right. exact H.
Qed.

Lemma totals_rows_names (m : gmap string float) ks :
  (forall k, k ∈ ks -> k ∈ dom m) ->
  map (hd EmptyString)
      (omap (fun k => (fun total => [k; Go.Sprintf_2f total]) <$> m !! k) ks) = ks.
Proof.
  induction ks as [|k ks IH]; intros H; [reflexivity|].
  cbn [omap list_omap].
  destruct (proj1 (elem_of_dom m k) (H k ltac:(left))) as [total Hk].
  rewrite Hk. cbn. f_equal. apply IH. intros k' Hk'. apply H. right. exact Hk'.
Qed.

(** X12. The two tables of the archive of part_004 list the same
    jurisdictions, each once: the first cells of the rows of the totals table
    are, up to their order, the tax columns of the table of charges, whatever
    the orders in which the maps are visited. *)
Theorem archive_tables_agree o records :
  map (hd EmptyString) (tl (Dual.dueByJurisdiction o records))
  ≡ₚ drop 7 (hd [] (Dual.dueByCharge o records))
  /\ NoDup (map (hd EmptyString) (tl (Dual.dueByJurisdiction o records)))
  /\ length (Dual.dueByJurisdiction o records)
     = S (length (drop 7 (hd [] (Dual.dueByCharge o records)))).
Proof.
  assert (Hl : map (hd EmptyString) (tl (Dual.dueByJurisdiction o records))
               = rangeKeys o Dual.siteJurisTotals (jurisdictions records)).
  { unfold Dual.dueByJurisdiction. cbn [tl].
    rewrite (rangeMap_append o _ (fun juris total => [juris; Go.Sprintf_2f total])).
    cbn [app]. rewrite totals_rows_names, jurisTotals_dom; [reflexivity|].
    intros k. apply rangeKeys_elem_of. }
  assert (Hr : drop 7 (hd [] (Dual.dueByCharge o records))
               = rangeKeys o Dynamic.siteJurisSet (jurisdictions records)).
  { unfold Dual.dueByCharge, Dynamic.output. cbn [hd]. unfold Dynamic.headers.
    cbn [app drop]. apply getAllJurisNames_eq. }
  split; [|split].
  - rewrite Hl, Hr, !rangeKeys_perm. reflexivity.
  - rewrite Hl. apply rangeKeys_NoDup.
  - rewrite Hr.
    transitivity (S (length (map (hd EmptyString) (tl (Dual.dueByJurisdiction o records))))).
    + rewrite length_map. unfold Dual.dueByJurisdiction. reflexivity.
    + rewrite Hl. f_equal. apply Permutation_length. rewrite !rangeKeys_perm. reflexivity.
Qed.

(** ** The order in which a map is visited *)
Lemma amounts_order o o' charge taxRates :
  Dynamic.amounts o charge taxRates = Dynamic.amounts o' charge taxRates.
Proof.
  apply map_eq. intros j. unfold Dynamic.amounts.
  rewrite !(rangeMap_insert _ _ (fun rate => (charge * rate)%float)). reflexivity.
Qed.

Lemma processRow_order PF UM Do o o' n row :
  Dynamic.processRow PF UM Do o n row = Dynamic.processRow PF UM Do o' n row.
Proof.
  unfold Dynamic.processRow.
  destruct (parseDate _ _) as [e|[[m d] y]]; [reflexivity|].
  destruct (PF _) as [charge|]; [|reflexivity].
  destruct (Dynamic.scrapeTaxRates _ _ _ _ _ _ _ _ _ _) as [log [e|taxRates]]; [reflexivity|].
  rewrite (amounts_order o o'). reflexivity.
Qed.

(** X13. The order in which Go visits a map has no part in the records of a
    run of part_005, in its log or its error, nor in the totals of part_004;
    it only arranges the tax columns, which are the same up to their order. *)
Theorem map_order_immaterial PF UM Do o o' :
  (forall file, Dynamic.processCSV PF UM Do o file = Dynamic.processCSV PF UM Do o' file)
  /\ (forall records, Dual.jurisTotals o records = Dual.jurisTotals o' records)
  /\ (forall records,
        Dynamic.getAllJurisNames o records ≡ₚ Dynamic.getAllJurisNames o' records).
Proof.
  split; [|split].
  - intros file. unfold Dynamic.processCSV.
    destruct (Csv.reads file) as [|[header|e] rest]; try reflexivity.
    destruct (negb (equal header Dynamic.expected)); [reflexivity|].
    generalize (@nil Dynamic.TaxRecord) as records. generalize (@nil LogLine) as log.
    induction rest as [|[row|e] rest IH]; intros log records; cbn [Dynamic.loop];
      try reflexivity.
    rewrite (processRow_order PF UM Do o o').
    destruct (Dynamic.processRow PF UM Do o' (length records) row) as [l [e|rec]];
      [reflexivity | apply IH].
  - intros records. apply map_eq. intros j. rewrite !jurisTotals_lookup. reflexivity.
  - intros records. rewrite !getAllJurisNames_eq, !rangeKeys_perm. reflexivity.
Qed.

(** ** The table of part_003 *)
Lemma ReadAll_inr results records :
  Scraper.ReadAll results = inr records <-> results = map Csv.Fields records.
Proof.
  revert records. induction results as [|[row|e] results IH]; intros records; cbn.
  - split; [intros [= <-]; reflexivity|]. destruct records; [reflexivity | discriminate].
  - destruct (Scraper.ReadAll results) as [e|records'].
    + split; [discriminate|]. destruct records as [|r records]; [discriminate|].
      cbn. intros [= _ H]. apply IH in H. discriminate.
    + split.
      * intros [= <-]. cbn. f_equal. apply IH. reflexivity.
      * destruct records as [|r records]; [discriminate|]. cbn. intros [= -> H].
        apply IH in H. congruence.
  - split; [discriminate|]. destruct records; discriminate.
Qed.

Lemma Scraper_processRow_length PF fetch row :
  length (Scraper.processRow PF fetch row) = (length row + 3)%nat.
Proof.
  unfold Scraper.processRow.
  destruct (length row <? 4)%nat; [rewrite length_app; reflexivity|].
  destruct (PF (field 3 row)); [|rewrite length_app; reflexivity].
  destruct (Scraper.scrapeTaxRates PF fetch (field 2 row)) as [e|[[l c] st]];
    rewrite length_app; reflexivity.
Qed.

Lemma Scraper_processCSV_inr PF fetch arrival file table :
  Scraper.processCSV PF fetch arrival file = inr table ->
  exists header row rows,
    file = Csv.Row header :: Csv.Row row :: map Csv.Row rows
    /\ Forall (fun r => length r = length header) (row :: rows)
    /\ table = (header ++ ["LocalTax"; "CountyTax"; "StateTax"]%string)
               :: arrive arrival (map (Scraper.processRow PF fetch) (row :: rows)).
Proof.
  unfold Scraper.processCSV. intros H.
  destruct (Scraper.ReadAll (Csv.reads file)) as [e|records] eqn:ER; [discriminate|].
  destruct (length records <? 2)%nat eqn:El; [discriminate|].
  apply Nat.ltb_ge in El. injection H as <-.
  destruct records as [|header [|row rows]]; cbn in El; try lia.
  apply ReadAll_inr in ER. unfold Csv.reads in ER.
  pose proof (reads_fields_length _ _ _ ER) as Hlen.
  apply reads_fields in ER. subst file. cbn in Hlen.
  apply Forall_cons in Hlen as [_ Hlen].
  exists header, row, rows. split; [reflexivity | split; [exact Hlen | reflexivity]].
Qed.


(** X15. The table part_003 writes has the header of the file with the three
    tax columns after it and, in the order in which the goroutines finish, one
    row per data row of the file, the row with three cells after it: every
    line has three cells more than the header of the file, and the table has
    as many lines as the file.  Under a header of fewer than four columns
    every row is marked incomplete. *)
Theorem scraper_table_shape PF fetch arrival file table :
  Scraper.processCSV PF fetch arrival file = inr table ->
  exists header rows,
    file = Csv.Row header :: map Csv.Row rows
    /\ hd [] table = header ++ ["LocalTax"; "CountyTax"; "StateTax"]%string
    /\ tl table ≡ₚ map (Scraper.processRow PF fetch) rows
    /\ Forall (fun line => length line = (length header + 3)%nat) table
    /\ length table = length file
    /\ ((length header < 4)%nat ->
        tl table ≡ₚ map (fun row => row ++ ["Error: Incomplete row"; ""; ""]%string) rows).
Proof.
  intros H.
  destruct (Scraper_processCSV_inr _ _ _ _ _ H) as (header & row & rows & -> & Hl & ->).
  exists header, (row :: rows). cbn [hd tl].
  split; [reflexivity | split; [reflexivity | split; [apply arrive_perm|split; [|split]]]].
  - constructor; [rewrite length_app; reflexivity|].
    rewrite (arrive_perm arrival). apply Forall_forall. intros line Hin.
    apply list_elem_of_fmap in Hin as (r & -> & Hr).
    rewrite Scraper_processRow_length. f_equal.
    apply (proj1 (Forall_forall _ _) Hl r Hr).
  - cbn [length]. rewrite (Permutation_length (arrive_perm arrival _)), !length_map.
    reflexivity.
  - intros Hh. rewrite (arrive_perm arrival).
    assert (Hmap : map (Scraper.processRow PF fetch) (row :: rows)
                   = map (fun row => row ++ ["Error: Incomplete row"; ""; ""]%string)
                         (row :: rows)); [|rewrite Hmap; reflexivity].
    apply map_ext_in. intros r Hr. unfold Scraper.processRow.
    rewrite (proj1 (List.Forall_forall _ _) Hl r Hr).
    apply Nat.ltb_lt in Hh. rewrite Hh. reflexivity.
Qed.

Lemma scraper_table_shape_witness :
  Scraper.processCSV Go.ParseFloat_decimal (fun _ => inr Run.page) inTurn
    [Csv.Row ["Client"; "Date"; "Address"; "Charge"]%string;
     Csv.Row ["John"; "2025-02-22"; "123 Main St Austin TX"; "100.00"]%string]
  = inr [["Client"; "Date"; "Address"; "Charge"; "LocalTax"; "CountyTax"; "StateTax"];
         ["John"; "2025-02-22"; "123 Main St Austin TX"; "100.00"; "2.00"; "0.50"; "6.25"]]%string
  /\ exists header rows,
       [Csv.Row ["Client"; "Date"; "Address"; "Charge"]%string;
        Csv.Row ["John"; "2025-02-22"; "123 Main St Austin TX"; "100.00"]%string]
       = Csv.Row header :: map Csv.Row rows
       /\ length rows = 1%nat.
Proof.
  assert (E : Scraper.processCSV Go.ParseFloat_decimal (fun _ => inr Run.page) inTurn
    [Csv.Row ["Client"; "Date"; "Address"; "Charge"]%string;
     Csv.Row ["John"; "2025-02-22"; "123 Main St Austin TX"; "100.00"]%string]
  = inr [["Client"; "Date"; "Address"; "Charge"; "LocalTax"; "CountyTax"; "StateTax"];
         ["John"; "2025-02-22"; "123 Main St Austin TX"; "100.00"; "2.00"; "0.50"; "6.25"]]%string)
    by (vm_compute; reflexivity).
  split; [exact E|].
  destruct (scraper_table_shape _ _ _ _ _ E) as (header & rows & Hf & _ & _ & _ & Hn & _).
  exists header, rows. split; [exact Hf|].
  apply (f_equal (@length _)) in Hf. cbn [length] in Hf. rewrite length_map in Hf. lia.
Defined.

(** ** The front door *)

(** X16. Behind [corsMiddleware] the handler of part_005 sets the three
    headers on every reply; it answers a preflight request, and no other,
    without running the handler; any other request that is not a POST, a GET
    among them, is refused; and the rate service is not asked anything unless
    the request is a POST whose file begins with the expected header and a
    further record. *)
Theorem front_door PF UM o Method upload :
  let serve := fun Do =>
    corsMiddleware (fun m => Dynamic.taxRatesHandler PF UM Do o m upload) Method in
  (forall Do, fst (serve Do) = corsHeaders)
  /\ (forall Do, snd (serve Do) = None <-> Method = "OPTIONS"%string)
  /\ (forall Do, Method <> "OPTIONS"%string -> Method <> "POST"%string ->
        snd (serve Do) = Some ([], Http.MethodNotAllowed))
  /\ (forall Do Do',
        (Method = "POST"%string ->
         forall file row rest,
           upload = Http.Uploaded file ->
           Csv.reads file <> Csv.Fields Dynamic.expected :: Csv.Fields row :: rest) ->
        serve Do = serve Do').
Proof.
  cbn zeta. unfold corsMiddleware. split; [|split; [|split]].
  - intros Do. destruct (String.eqb Method "OPTIONS"); reflexivity.
  - intros Do. destruct (String.eqb Method "OPTIONS") eqn:E; cbn [snd].
    + apply String.eqb_eq in E. tauto.
    + apply String.eqb_neq in E. split; [discriminate | contradiction].
  - intros Do Ho Hp. apply String.eqb_neq in Ho, Hp. rewrite Ho. cbn [snd].
    unfold Dynamic.taxRatesHandler. rewrite Hp. reflexivity.
  - intros Do Do' H. destruct (String.eqb Method "OPTIONS"); [reflexivity|].
    f_equal. f_equal. unfold Dynamic.taxRatesHandler.
    destruct (String.eqb Method "POST") eqn:Ep; cbn [negb]; [|reflexivity].
    apply String.eqb_eq in Ep. destruct upload as [| |file]; try reflexivity.
    specialize (H Ep file). unfold Dynamic.processCSV.
    destruct (Csv.reads file) as [|[header|e] rest]; try reflexivity.
    destruct (equal header Dynamic.expected) eqn:Eh; cbn [negb]; [|reflexivity].
    apply equal_spec in Eh. subst header.
    destruct rest as [|[row|e] rest]; try reflexivity.
    exfalso. apply (H row rest); reflexivity.
Qed.

(** ** Comparing the header *)

(** X17. [equal] answers true exactly for two slices of the same strings in
    the same order, letter case and white space included, and does not depend
    on which of the two comes first. *)
Theorem equal_exact (a b : list string) :
  (equal a b = true <-> a = b) /\ equal a b = equal b a.
Proof.
  split; [apply equal_spec|].
  destruct (equal a b) eqn:E1, (equal b a) eqn:E2; try reflexivity.
  - apply equal_spec in E1. apply equal_false in E2. congruence.
  - apply equal_spec in E2. apply equal_false in E1. congruence.
Qed.

(** ** The requests of a run *)
Section BatchInvariant.
Context {R : Type} (processRow : nat -> list string -> list LogLine * (Error + R)).
Context (I : list R -> list LogLine -> Prop).
Hypothesis step : forall records log row l rec,
  I records log -> processRow (length records) row = (l, inr rec) ->
  I (records ++ [rec]) (log ++ l).

Lemma batch_invariant rest records log log' records' :
  I records log ->
  batch processRow rest records log = (log', inr records') ->
  I records' log'.
Proof.
  revert records log. induction rest as [|[row|e] rest IH]; intros records log HI H;
    cbn [batch] in H.
  - injection H as <- <-. exact HI.
  - destruct (processRow (length records) row) as [l [err|rec]] eqn:E; [discriminate|].
    apply (IH _ _ (step _ _ _ _ _ HI E) H).
  - discriminate.
Qed.
End BatchInvariant.

Lemma warnings_no_request key PF rates :
  List.filter isRequest (warnings key PF rates) = [].
Proof.
  unfold warnings.
  induction (List.filter (fun rate => negb (usable PF rate)) rates) as [|r l IH];
    [reflexivity | exact IH].
Qed.

Lemma Fixed_scrape_request PF TU UM yr Do n street city state zip log rates :
  Fixed.scrapeTaxRates PF TU UM yr Do n street city state zip = (log, inr rates) ->
  let q := {| Api.q_state := state; Api.q_city := city; Api.q_zipcode := zip;
              Api.q_street := street; Api.q_quarter := 1; Api.q_year := yr |} in
  List.filter isRequest log = [LogRequest q]
  /\ exists body, Do n q = Api.Replied 200 body.
Proof.
  unfold Fixed.scrapeTaxRates, scrapeThree. cbn zeta.
  destruct (Do n _) as [e|status e|status body]; try discriminate.
  destruct (status =? Api.StatusOK) eqn:Es; cbn [negb]; [|discriminate].
  apply Z.eqb_eq in Es. subst status.
  destruct (UM body) as [taxData|]; [|discriminate].
  unfold ratesOfReply. cbn zeta. rewrite threeRates_spec.
  destruct (_ =? 0)%float; [discriminate|].
  intros [= <- _]. split; [|eexists; reflexivity].
  cbn [app List.filter isRequest]. f_equal.
  rewrite !List.filter_app, warnings_no_request.
  destruct (negb _ || negb _ || negb _), (length (Api.TaxRates taxData) <? 3)%nat;
    reflexivity.
Qed.

(** X18. A run of main.go that returns records has made one request per
    record and no other, in the order of the records: the requests its log
    lists are those of the records' addresses, each for the first quarter of
    the current year whatever the row, and the [i]-th of them was answered
    with a status of 200. *)
Theorem requests_follow_records PF TU UM yr Do file log records :
  Fixed.processCSV PF TU UM yr Do file = (log, inr records) ->
  List.filter isRequest log = map (fun rec => LogRequest (requestOf yr rec)) records
  /\ forall i rec, records !! i = Some rec ->
       exists body, Do i (requestOf yr rec) = Api.Replied 200 body.
Proof.
  intros H. unfold Fixed.processCSV in H.
  destruct (Csv.reads file) as [|[header|e] rest]; try discriminate.
  destruct (negb (equal header Fixed.expected)); [discriminate|].
  rewrite Fixed_loop_batch in H.
  refine (batch_invariant (Fixed.processRow PF TU UM yr Do)
            (fun records log =>
               List.filter isRequest log
               = map (fun rec => LogRequest (requestOf yr rec)) records
               /\ forall i rec, records !! i = Some rec ->
                    exists body, Do i (requestOf yr rec) = Api.Replied 200 body)
            _ rest [] [] log records _ H).
  - clear. intros records log row l rec [Hlog Hdo] Hrow.
    destruct (Fixed_processRow_inr _ _ _ _ _ _ _ _ _ Hrow) as (ch & c & k & st & _ & Hs & ->).
    destruct (Fixed_scrape_request _ _ _ _ _ _ _ _ _ _ _ _ Hs) as [Hl [body Hb]].
    split.
    + rewrite List.filter_app, Hlog, Hl, map_app. reflexivity.
    + intros i rec Hi. apply lookup_app_Some in Hi as [Hi|[Hge Hi]]; [eauto|].
      destruct (i - length records)%nat eqn:Ei; [|destruct n; discriminate].
      injection Hi as <-. replace i with (length records) by lia.
      exists body. exact Hb.
  - split; [reflexivity|]. intros i rec Hi. discriminate.
Qed.

Lemma requests_follow_records_witness :
  List.filter isRequest
    (fst (Fixed.processCSV Go.ParseFloat_decimal id (Run.unmarshalAs Run.austin) 2025
            Run.service [Run.header6; Csv.Row Run.john6; Csv.Row Run.jane6]))
  = [LogRequest {| Api.q_state := "TX"; Api.q_city := "Austin"; Api.q_zipcode := "78701";
                   Api.q_street := "123 Main St"; Api.q_quarter := 1; Api.q_year := 2025 |};
     LogRequest {| Api.q_state := "TX"; Api.q_city := "Marfa"; Api.q_zipcode := "79843";
                   Api.q_street := "1 Elm St"; Api.q_quarter := 1; Api.q_year := 2025 |}].
Proof.
  destruct (Fixed.processCSV Go.ParseFloat_decimal id (Run.unmarshalAs Run.austin) 2025
              Run.service [Run.header6; Csv.Row Run.john6; Csv.Row Run.jane6])
    as [log [e|records]] eqn:E; [vm_compute in E; discriminate|].
  cbn [fst]. rewrite (proj1 (requests_follow_records _ _ _ _ _ _ _ _ E)).
  vm_compute in E. injection E as _ <-. reflexivity.
Defined.

(** ** Replies that carry numbers *)
Lemma lastTyped_snoc t rates rate :
  lastTyped t (rates ++ [rate])
  = if String.eqb (JsonFloat.Type_ rate) t then Some (JsonFloat.Rate_ rate)
    else lastTyped t rates.
Proof. unfold lastTyped. rewrite fold_left_app. reflexivity. Qed.

Lemma JsonFloat_rates_spec rates :
  fold_left JsonFloat.rateStep rates (0%float, 0%float, 0%float)
  = (default 0%float (lastTyped "CITY" rates),
     default 0%float (lastTyped "COUNTY" rates),
     default 0%float (lastTyped "STATE" rates)).
Proof.
  induction rates as [|rate rates IH] using rev_ind; [reflexivity|].
  rewrite fold_left_app. cbn [fold_left]. rewrite IH, !lastTyped_snoc.
  unfold JsonFloat.rateStep.
  destruct (String.eqb (JsonFloat.Type_ rate) "STATE") eqn:Es.
  - apply String.eqb_eq in Es. rewrite Es. reflexivity.
  - destruct (String.eqb (JsonFloat.Type_ rate) "COUNTY") eqn:Ek.
    + apply String.eqb_eq in Ek. rewrite Ek. reflexivity.
    + destruct (String.eqb (JsonFloat.Type_ rate) "CITY"); reflexivity.
Qed.

(** X19. In part_000 and part_002 a lookup, always made for the first quarter
    of the current year, returns rates exactly when the service answers 200,
    the body decodes and the rate of the last STATE entry is not zero; the
    rates are then those of the last entry of each type, zero for a type
    without an entry.  Any other status is reported without the body, and
    a reply without a state rate that is not zero with the error that names no
    reply. *)
Theorem numeric_lookup_succeeds_exactly Decode yr Do n street city state zip :
  let q := {| Api.q_state := state; Api.q_city := city; Api.q_zipcode := zip;
              Api.q_street := street; Api.q_quarter := 1; Api.q_year := yr |} in
  let result := JsonFloat.scrapeTaxRates Decode yr Do n street city state zip in
  let ratesOf := fun taxData =>
    (default 0%float (lastTyped "CITY" (JsonFloat.Rates taxData)),
     default 0%float (lastTyped "COUNTY" (JsonFloat.Rates taxData)),
     default 0%float (lastTyped "STATE" (JsonFloat.Rates taxData))) in
  (forall rates,
     result = inr rates <->
     exists body taxData,
       Do n q = JsonFloat.Replied 200 body /\ Decode body = Some taxData
       /\ rates = ratesOf taxData
       /\ (snd (ratesOf taxData) =? 0)%float = false)
  /\ (forall status body,
        Do n q = JsonFloat.Replied status body -> status <> 200 ->
        result = inl (UnexpectedStatus status EmptyString))
  /\ (forall body taxData,
        Do n q = JsonFloat.Replied 200 body -> Decode body = Some taxData ->
        (snd (ratesOf taxData) =? 0)%float = true ->
        result = inl NoStateRate).
Proof.
  cbn zeta. unfold JsonFloat.scrapeTaxRates. split; [|split].
  - intros rates. destruct (Do n _) as [e|status body].
    + split; [discriminate|]. intros (b & t & H & _). discriminate.
    + destruct (status =? Api.StatusOK) eqn:Es; cbn [negb].
      * apply Z.eqb_eq in Es. subst status. destruct (Decode body) as [taxData|] eqn:ED.
        -- rewrite JsonFloat_rates_spec. cbn [snd].
           destruct (_ =? 0)%float eqn:E0.
           ++ split; [discriminate|]. intros (b & t & [= <-] & Ht & _ & H0).
              rewrite ED in Ht. injection Ht as <-. cbn [snd] in H0. congruence.
           ++ split.
              ** intros [= <-]. exists body, taxData. cbn [snd]. auto.
              ** intros (b & t & [= <-] & Ht & -> & _). rewrite ED in Ht.
                 injection Ht as <-. reflexivity.
        -- split; [discriminate|]. intros (b & t & [= <-] & Ht & _).
           rewrite ED in Ht. discriminate.
      * split; [discriminate|]. intros (b & t & [= -> _] & _). discriminate.
  - intros status body -> Hs. apply Z.eqb_neq in Hs. unfold Api.StatusOK. rewrite Hs.
    reflexivity.
  - intros body taxData -> -> H0. cbn [negb Z.eqb Api.StatusOK Pos.eqb].
    rewrite JsonFloat_rates_spec. cbn [snd] in H0. rewrite H0. reflexivity.
Qed.
